(** * Verification of the CSP itinerary scheduler

    Shallow embedding of [backend/app/services/csp_scheduler.py]: the [CSP]
    class with its backtracking search and [generate_schedule], which builds
    the slot variables, runs the search and regroups the assignment by day.

    Python values are modelled as follows.
    - [str] is [string]; the three string methods the scheduler calls
      ([split], [replace], [int]) are defined below on [string].
    - an activity (a [dict] of descriptive fields) is a [gmap string pyval]:
      Python compares dicts by their key/value content, which is Leibniz
      equality on [gmap].
    - the assignment and the returned schedule are [dict]s whose iteration
      order is observable, so they are association lists in insertion order.
    - exceptions are an error result; the recursion of [backtrack] is driven
      by a fuel argument that is shown to be sufficient. *)

From Stdlib Require Import ZArith String Ascii List Decimal DecimalString DecimalZ DecimalPos Lia.
From stdpp Require Import base option list gmap strings.

Local Open Scope Z_scope.

(** ** Results of Python computations *)

Inductive exn : Type := IndexError | KeyError | ValueError.

Inductive res (A : Type) : Type :=
  | Ok (a : A)
  | Raise (e : exn)
  | OutOfFuel.
Arguments Ok {A} a.
Arguments Raise {A} e.
Arguments OutOfFuel {A}.

Definition bind_res {A B} (m : res A) (k : A → res B) : res B :=
  match m with
  | Ok a => k a
  | Raise e => Raise e
  | OutOfFuel => OutOfFuel
  end.

Notation "x ←r m ; k" := (bind_res m (λ x, k))
  (at level 20, m at level 100, k at level 200, only parsing).

(** ** Strings *)

Module PyStr.

(** [s.split(sep)] for a one-character separator. *)
Fixpoint split (sep : ascii) (s : string) : list string :=
  match s with
  | EmptyString => [EmptyString]
  | String c s' =>
      if Ascii.eqb c sep then EmptyString :: split sep s'
      else match split sep s' with
           | w :: ws => String c w :: ws
           | [] => [String c EmptyString]
           end
  end.

(** [s.replace(old, new)] for a non-empty [old]: occurrences are replaced
    from left to right without overlap.  [skip] counts the characters of
    the occurrence being consumed. *)
Fixpoint replace_go (old new : string) (skip : nat) (s : string) : string :=
  match s with
  | EmptyString => EmptyString
  | String c s' =>
      match skip with
      | S k => replace_go old new k s'
      | O =>
          if String.prefix old s
          then new +:+ replace_go old new (Nat.pred (String.length old)) s'
          else String c (replace_go old new O s')
      end
  end.

Definition replace (old new s : string) : string := replace_go old new O s.

(** [str(n)] as used by an f-string on an [int]. *)
Definition of_int (n : Z) : string := NilZero.string_of_int (Z.to_int n).

(** [int(s)] on a plain decimal literal, with an optional leading minus
    sign; anything else is a [ValueError].  Python also accepts blanks, a
    plus sign and digit separators, which no generated label contains. *)
Definition to_int (s : string) : res Z :=
  match NilZero.int_of_string s with
  | Some d => Ok (Z.of_int d)
  | None => Raise ValueError
  end.

End PyStr.

(** ** Insertion-ordered dictionaries *)

Module PyDict.

Abbreviation t K V := (list (K * V)).

Section dict.
Context {K V : Type} `{EqDecision K}.

Definition keys (d : t K V) : list K := d.*1.
Definition values (d : t K V) : list V := d.*2.

(** [k in d] *)
Definition mem (k : K) (d : t K V) : bool := bool_decide (k ∈ keys d).

(** [d.get(k)] *)
Fixpoint get (k : K) (d : t K V) : option V :=
  match d with
  | [] => None
  | (k', v) :: d' => if decide (k' = k) then Some v else get k d'
  end.

(** In-place change of the value stored under [k]. *)
Fixpoint alter (f : V → V) (k : K) (d : t K V) : t K V :=
  match d with
  | [] => []
  | (k', v) :: d' =>
      if decide (k' = k) then (k', f v) :: d' else (k', v) :: alter f k d'
  end.

(** [d[k] = v]: an existing key keeps its position, a new key goes last. *)
Definition set (k : K) (v : V) (d : t K V) : t K V :=
  if mem k d then alter (λ _, v) k d else d ++ [(k, v)].

(** [del d[k]] *)
Definition del (k : K) (d : t K V) : res (t K V) :=
  if mem k d then Ok (filter (λ kv, kv.1 ≠ k) d) else Raise KeyError.

End dict.
End PyDict.

(** ** Activities *)

(** Field values of an activity record. *)
Inductive pyval : Type :=
  | VStr (s : string)
  | VInt (n : Z)
  | VNone.

Global Instance pyval_eq_dec : EqDecision pyval.
Proof. solve_decision. Defined.

Abbreviation Activity := (gmap string pyval).

(** [value.get("category") == "food"] *)
Definition is_food (value : Activity) : bool :=
  bool_decide (value !! "category" = Some (VStr "food")).

(** ** The CSP class *)

Abbreviation Assignment := (PyDict.t string Activity).

Definition Constraint : Type := Assignment → string → Activity → res bool.

Record CSP : Type := mkCSP {
  variables : list string;
  domains : gmap string (list Activity);
  constraints : list Constraint
}.

(** [CSP.is_consistent] *)
Fixpoint is_consistent (cs : list Constraint) (assignment : Assignment)
    (var : string) (value : Activity) : res bool :=
  match cs with
  | [] => Ok true
  | constraint :: cs' =>
      ok ←r constraint assignment var value;
      if negb ok then Ok false else is_consistent cs' assignment var value
  end.

(** What [backtrack] returns: [None], or the object [self.assignment]
    itself, whose content is the state of the search at that moment. *)
Inductive ret : Type := RetNone | RetAssignment.

(** Truth value of the returned object in [if result:]. *)
Definition truthy (r : ret) (assignment : Assignment) : bool :=
  match r with
  | RetNone => false
  | RetAssignment => negb (bool_decide (assignment = []))
  end.

(** The [for value in self.domains[var]] loop of [backtrack]; [rec] is the
    recursive call [self.backtrack()]. *)
Fixpoint try_values (rec : Assignment → res (ret * Assignment))
    (cs : list Constraint) (var : string) (dom : list Activity)
    (assignment : Assignment) : res (ret * Assignment) :=
  match dom with
  | [] => Ok (RetNone, assignment)
  | value :: dom' =>
      ok ←r is_consistent cs assignment var value;
      if ok then
        ra ←r rec (PyDict.set var value assignment);
        if truthy ra.1 ra.2 then Ok ra
        else
          assignment' ←r PyDict.del var ra.2;
          try_values rec cs var dom' assignment'
      else try_values rec cs var dom' assignment
  end.

(** [CSP.backtrack], threading [self.assignment]. *)
Fixpoint backtrack (fuel : nat) (csp : CSP) (assignment : Assignment)
    : res (ret * Assignment) :=
  match fuel with
  | O => OutOfFuel
  | S fuel' =>
      if bool_decide (length assignment = length (variables csp))
      then Ok (RetAssignment, assignment)
      else
        match filter (λ v, PyDict.mem v assignment = false) (variables csp) with
        | [] => Raise IndexError
        | var :: _ =>
            match domains csp !! var with
            | None => Raise KeyError
            | Some dom =>
                try_values (backtrack fuel' csp) (constraints csp) var dom assignment
            end
        end
  end.

(** ** generate_schedule *)

(** The constraints configuration: a [dict] from option names to integers. *)
Abbreviation Config := (gmap string Z).

(** [range(n)] *)
Definition py_range (n : Z) : list Z := seqZ 0 n.

(** [f"Day{d+1}_Slot{slot+1}"] *)
Definition slot_label (d slot : Z) : string :=
  "Day" +:+ PyStr.of_int (d + 1) +:+ "_Slot" +:+ PyStr.of_int (slot + 1).

Definition make_variables (num_days max_per_day : Z) : list string :=
  d ← py_range num_days; slot ← py_range max_per_day; [slot_label d slot].

(** [{var: activities.copy() for var in variables}] *)
Definition make_domains (activities : list Activity) (vars : list string)
    : gmap string (list Activity) :=
  foldl (λ m var, <[var := activities]> m) ∅ vars.

Definition no_duplicate : Constraint :=
  λ assignment var value,
    Ok (bool_decide (value ∉ PyDict.values assignment)).

Definition food_after_slot (config : Config) : Constraint :=
  λ assignment var value,
    if is_food value then
      match PyStr.split "_" var !! 1%nat with
      | None => Raise IndexError
      | Some part =>
          slot_no ←r PyStr.to_int (PyStr.replace "Slot" "" part);
          Ok (slot_no >=? default 1 (config !! "food_after_slot"))
      end
    else Ok true.

Definition make_csp (activities : list Activity) (num_days : Z)
    (config : Config) : CSP :=
  let vars := make_variables num_days (default 3 (config !! "max_per_day")) in
  mkCSP vars (make_domains activities vars)
        [no_duplicate; food_after_slot config].

(** The day-keyed dictionary under construction. *)
Abbreviation Days := (PyDict.t string (list Activity)).

(** One iteration of the formatting loop. *)
Definition format_step (final : Days) (item : string * Activity) : res Days :=
  match PyStr.split "_" item.1 !! 0%nat with
  | None => Raise IndexError
  | Some day_key =>
      let final1 :=
        if negb (PyDict.mem day_key final) then PyDict.set day_key [] final
        else final in
      if PyDict.mem day_key final1
      then Ok (PyDict.alter (λ l, l ++ [item.2]) day_key final1)
      else Raise KeyError
  end.

(** [for var, activity in result.items(): ...] *)
Fixpoint format_days (items : Assignment) (final : Days) : res Days :=
  match items with
  | [] => Ok final
  | item :: items' =>
      final' ←r format_step final item;
      format_days items' final'
  end.

(** Objects stored in the returned dictionary. *)
Inductive pyobj : Type :=
  | OStr (s : string)
  | OList (l : list Activity).

Global Instance pyobj_eq_dec : EqDecision pyobj.
Proof. solve_decision. Defined.

Abbreviation Output := (PyDict.t string pyobj).

Definition no_solution : Output :=
  [("message", OStr "No valid schedule found for given constraints")].

Definition schedule_obj (final : Days) : Output :=
  (λ kv, (kv.1, OList kv.2)) <$> final.

(** Dates are proleptic ordinals, so [(end_date - start_date).days] is a
    difference of integers. *)
Definition generate_schedule (activities : list Activity)
    (start_date end_date : Z) (config : Config) : res Output :=
  let num_days := (end_date - start_date) + 1 in
  let csp := make_csp activities num_days config in
  ra ←r backtrack (S (length (variables csp))) csp [];
  if negb (truthy ra.1 ra.2) then Ok no_solution
  else
    final ←r format_days ra.2 [];
    Ok (schedule_obj final).

(** ** Specification-level definitions *)

(** Every character of a string satisfies a test. *)
Fixpoint str_forall (P : ascii → bool) (s : string) : bool :=
  match s with
  | EmptyString => true
  | String c s' => P c && str_forall P s'
  end.

(** Characters that a printed integer is made of. *)
Definition is_int_char (c : ascii) : bool :=
  match Ascii.is_nat c with
  | Some _ => true
  | None => Ascii.eqb c "-"
  end.

(** The day part of a slot label, as [var.split("_")[0]] returns it. *)
Definition day_label (d : Z) : string := "Day" +:+ PyStr.of_int (d + 1).

(** The constraint test of [backtrack] as a boolean: [true] exactly when
    [is_consistent] returns [True]. *)
Definition check (cs : list Constraint) (a : Assignment)
    (var : string) (value : Activity) : bool :=
  match is_consistent cs a var value with
  | Ok true => true
  | _ => false
  end.

(** [extends_ok cs a c]: the entries of [c] can be added to [a] one after
    the other, each passing the constraints against what precedes it. *)
Fixpoint extends_ok (cs : list Constraint) (a c : Assignment) : bool :=
  match c with
  | [] => true
  | (var, value) :: c' =>
      check cs a var value && extends_ok cs (a ++ [(var, value)]) c'
  end.

(** The search space: every way of giving each variable a value of its
    domain, enumerated with the first variable as the most significant
    position and values in domain order. *)
Fixpoint candidates (doms : string → list Activity) (vars : list string)
    : list Assignment :=
  match vars with
  | [] => [[]]
  | var :: vars' =>
      value ← doms var; cons (var, value) <$> candidates doms vars'
  end.

Definition dom_of (csp : CSP) (var : string) : list Activity :=
  default [] (domains csp !! var).

(** The first candidate, in enumeration order, that satisfies the
    constraints. *)
Definition first_solution (csp : CSP) : option Assignment :=
  List.find (extends_ok (constraints csp) [])
            (candidates (dom_of csp) (variables csp)).

(** Outcome of a search started in state [a] in terms of the extension
    found. *)
Definition search_result (a : Assignment) (o : option Assignment)
    : res (ret * Assignment) :=
  match o with
  | Some c => Ok (RetAssignment, a ++ c)
  | None => Ok (RetNone, a)
  end.

(** Variable names that [generate_schedule] can generate. *)
Definition is_label (var : string) : Prop := ∃ d slot, var = slot_label d slot.

(** The activity that an assignment gives to a variable. *)
Definition assigned (c : Assignment) (var : string) : Activity :=
  default ∅ (PyDict.get var c).

(** The schedule that a complete assignment stands for: one entry per day,
    holding the activities of slots 1, 2, ... of that day in this order. *)
Definition day_row (c : Assignment) (max_per_day d : Z) : string * list Activity :=
  (day_label d, (λ slot, assigned c (slot_label d slot)) <$> py_range max_per_day).

Definition by_day (c : Assignment) (num_days max_per_day : Z) : Days :=
  day_row c max_per_day <$> py_range num_days.

(** The activity lists stored in an output dictionary, and all the
    activities it schedules. *)
Definition day_lists (out : Output) : list (list Activity) :=
  omap (λ kv, match kv.2 with OList l => Some l | OStr _ => None end) out.

Definition scheduled (out : Output) : list Activity := concat (day_lists out).

(** A result that is an error raised to the caller. *)
Definition is_error {A} (r : res A) : Prop :=
  match r with
  | Raise _ => True
  | _ => False
  end.

(** Sample activities and configurations for the scenarios. *)
Definition act (name category : string) : Activity :=
  {[ "name" := VStr name; "category" := VStr category ]}.
Definition museum : Activity := act "Museum" "sight".
Definition lunch : Activity := act "Lunch" "food".
Definition park : Activity := act "Park" "sight".
Definition zoo : Activity := act "Zoo" "sight".
Definition cfg (m f : Z) : Config :=
  {[ "max_per_day" := m; "food_after_slot" := f ]}.

(** The assignment found for the first scenario. *)
Definition sample_assignment : Assignment :=
  [(slot_label 0 0, act "Museum" "sight");
   (slot_label 0 1, act "Lunch" "food");
   (slot_label 0 2, act "Park" "sight")].

(** The day key that the formatting loop computes for a variable name:
    [var.split("_")[0]], which exists for every string. *)
Definition day_of (var : string) : string :=
  default "" (PyStr.split "_" var !! 0%nat).

(** The activities of the items whose variable belongs to a day, in the
    order of the items. *)
Definition day_items (items : Assignment) (day : string) : list Activity :=
  (filter (λ item, day_of item.1 = day) items).*2.

(** ** The itineraries router

    Embedding of [backend/app/routers/itineraries.py].  The row classes
    [models.Itinerary], [models.User] and [models.City] are declared
    outside the files at hand; they are taken with the attributes the
    router reads: a user has [user_id] and [user_type], an itinerary has
    its columns as an attribute dictionary (with [user_id] among them) and
    the collection [cities] of linked cities, referred to by primary key.
    The session [db] is the content of the two tables, indexed by primary
    key; a handler is a function of that content, returning its response or
    the [HTTPException] it raises, and the content after the call. *)

Module Router.

Inductive http (A : Type) : Type :=
  | Return (a : A)
  | HTTPException (status_code : Z) (detail : string).
Arguments Return {A} a.
Arguments HTTPException {A} status_code detail.

Record User : Type := mkUser {
  user_id : Z;
  user_type : string
}.

Record Itinerary : Type := mkItinerary {
  attrs : gmap string pyval;
  cities : list Z
}.

Record DB : Type := mkDB {
  itinerary_table : gmap Z Itinerary;
  city_table : gmap Z (gmap string pyval)
}.

(** Reading an attribute of a row; an unset column reads as [None]. *)
Definition attr (itinerary : Itinerary) (name : string) : pyval :=
  default VNone (attrs itinerary !! name).

(** Handlers run against the session and may raise. *)
Definition M (A : Type) : Type := DB → http A * DB.

Definition ret {A} (a : A) : M A := λ db, (Return a, db).

Definition raise {A} (status_code : Z) (detail : string) : M A :=
  λ db, (HTTPException status_code detail, db).

Definition bind {A B} (m : M A) (k : A → M B) : M B :=
  λ db,
    match m db with
    | (Return a, db') => k a db'
    | (HTTPException status_code detail, db') =>
        (HTTPException status_code detail, db')
    end.

Notation "x ←h m ; k" := (bind m (λ x, k))
  (at level 20, m at level 100, k at level 200, only parsing).

(** [db.query(models.Itinerary).get(itinerary_id)] *)
Definition query_itinerary (itinerary_id : Z) : M (option Itinerary) :=
  λ db, (Return (itinerary_table db !! itinerary_id), db).

(** [db.query(models.City).get(city_id)] *)
Definition query_city (city_id : Z) : M (option (gmap string pyval)) :=
  λ db, (Return (city_table db !! city_id), db).

(** [db.commit()] after the row [itinerary_id] was changed in place. *)
Definition commit_itinerary (itinerary_id : Z) (itinerary : Itinerary) : M unit :=
  λ db, (Return (),
         mkDB (<[itinerary_id := itinerary]> (itinerary_table db)) (city_table db)).

(** [db.delete(itinerary); db.commit()] *)
Definition commit_delete (itinerary_id : Z) : M unit :=
  λ db, (Return (), mkDB (delete itinerary_id (itinerary_table db)) (city_table db)).

Definition _get_itinerary_or_404 (itinerary_id : Z) : M Itinerary :=
  itinerary ←h query_itinerary itinerary_id;
  match itinerary with
  | None => raise 404 "Itinerary not found"
  | Some itinerary => ret itinerary
  end.

Definition _enforce_owner_or_admin (itinerary : Itinerary) (current_user : User)
    : M unit :=
  if bool_decide (attr itinerary "user_id" ≠ VInt (user_id current_user))
     && bool_decide (user_type current_user ≠ "admin")
  then raise 403 "Not permitted for this itinerary"
  else ret ().

(** [create_itinerary]; [new_id] is the primary key that the database gives
    to the added row. *)
Definition create_itinerary (new_id : Z) (payload : gmap string pyval)
    (current_user : User) : M (Z * Itinerary) :=
  if bool_decide (default VNone (payload !! "user_id") ≠ VInt (user_id current_user))
     && bool_decide (user_type current_user ≠ "admin")
  then raise 403 "Cannot create for other users"
  else
    let itinerary := mkItinerary payload [] in
    _ ←h commit_itinerary new_id itinerary;
    ret (new_id, itinerary).

(** [list_itineraries]; [order_by_start_date] is the ordering done by the
    database. *)
Definition list_itineraries
    (order_by_start_date : list (Z * Itinerary) → list (Z * Itinerary))
    (current_user : User) : M (list (Z * Itinerary)) :=
  λ db,
    let query := map_to_list (itinerary_table db) in
    let query :=
      if bool_decide (user_type current_user ≠ "admin")
      then filter (λ row, attr row.2 "user_id" = VInt (user_id current_user)) query
      else query in
    (Return (order_by_start_date query), db).

Definition get_itinerary (itinerary_id : Z) (current_user : User) : M Itinerary :=
  itinerary ←h _get_itinerary_or_404 itinerary_id;
  _ ←h _enforce_owner_or_admin itinerary current_user;
  ret itinerary.

(** [setattr(itinerary, key, value)] *)
Definition setattr (key : string) (value : pyval) (itinerary : Itinerary)
    : Itinerary :=
  mkItinerary (<[key := value]> (attrs itinerary)) (cities itinerary).

(** [update_itinerary]; [payload] holds the fields that were set in the
    request. *)
Definition update_itinerary (itinerary_id : Z) (payload : gmap string pyval)
    (current_user : User) : M Itinerary :=
  itinerary ←h _get_itinerary_or_404 itinerary_id;
  _ ←h _enforce_owner_or_admin itinerary current_user;
  let itinerary := map_fold setattr itinerary payload in
  _ ←h commit_itinerary itinerary_id itinerary;
  ret itinerary.

Definition delete_itinerary (itinerary_id : Z) (current_user : User) : M unit :=
  itinerary ←h _get_itinerary_or_404 itinerary_id;
  _ ←h _enforce_owner_or_admin itinerary current_user;
  commit_delete itinerary_id.

Definition add_city_to_itinerary (itinerary_id city_id : Z) (current_user : User)
    : M (PyDict.t string string) :=
  itinerary ←h _get_itinerary_or_404 itinerary_id;
  _ ←h _enforce_owner_or_admin itinerary current_user;
  city ←h query_city city_id;
  match city with
  | None => raise 404 "City not found"
  | Some _ =>
      if bool_decide (city_id ∈ cities itinerary)
      then raise 400 "City already in itinerary"
      else
        _ ←h commit_itinerary itinerary_id
               (mkItinerary (attrs itinerary) (cities itinerary ++ [city_id]));
        ret [("detail", "City added")]
  end.

(** [l.remove(x)]: the first occurrence goes. *)
Fixpoint list_remove_first (x : Z) (l : list Z) : list Z :=
  match l with
  | [] => []
  | y :: l' => if decide (y = x) then l' else y :: list_remove_first x l'
  end.

Definition remove_city_from_itinerary (itinerary_id city_id : Z)
    (current_user : User) : M unit :=
  itinerary ←h _get_itinerary_or_404 itinerary_id;
  _ ←h _enforce_owner_or_admin itinerary current_user;
  city ←h query_city city_id;
  match city with
  | Some _ =>
      if bool_decide (city_id ∉ cities itinerary)
      then raise 404 "City not linked to itinerary"
      else
        commit_itinerary itinerary_id
          (mkItinerary (attrs itinerary) (list_remove_first city_id (cities itinerary)))
  | None => raise 404 "City not linked to itinerary"
  end.

(** The request body of [plan_itinerary]. *)
Record ItineraryPlanRequest : Type := mkPlanRequest {
  plan_activities : list Activity;
  plan_start_date : Z;
  plan_end_date : Z;
  plan_constraints : Config
}.

Definition plan_itinerary (payload : ItineraryPlanRequest) (current_user : User)
    : DB → res Output * DB :=
  λ db,
    (generate_schedule (plan_activities payload) (plan_start_date payload)
       (plan_end_date payload) (plan_constraints payload), db).

(** The user may act on the itinerary: it exists, and the user owns it or
    is an administrator. *)
Definition may_access (db : DB) (itinerary_id : Z) (current_user : User) : Prop :=
  ∃ itinerary,
    itinerary_table db !! itinerary_id = Some itinerary
    ∧ (attr itinerary "user_id" = VInt (user_id current_user)
       ∨ user_type current_user = "admin").

(** What a user is refused: 404 for an itinerary that does not exist, 403
    for one of somebody else. *)
Definition refusal {A} (db : DB) (itinerary_id : Z) : http A :=
  match itinerary_table db !! itinerary_id with
  | None => HTTPException 404 "Itinerary not found"
  | Some _ => HTTPException 403 "Not permitted for this itinerary"
  end.

(** No itinerary lists a city twice. *)
Definition cities_distinct (db : DB) : Prop :=
  ∀ itinerary_id itinerary,
    itinerary_table db !! itinerary_id = Some itinerary → NoDup (cities itinerary).

End Router.

(** Sample users and tables: Alice owns itinerary 5, which links city 10. *)
Definition alice : Router.User := Router.mkUser 1 "traveler".
Definition bob : Router.User := Router.mkUser 2 "traveler".
Definition root : Router.User := Router.mkUser 9 "admin".
Definition trip : Router.Itinerary :=
  Router.mkItinerary {[ "user_id" := VInt 1; "title" := VStr "Rome" ]} [10].
Definition sample_db : Router.DB :=
  Router.mkDB {[ 5 := trip ]}
    {[ 10 := {[ "name" := VStr "Rome" ]}; 11 := {[ "name" := VStr "Oslo" ]} ]}.

(** ** Facts about the string methods *)

Section strings.

Lemma str_app_nil (s : string) : "" +:+ s = s.
Proof. reflexivity. Qed.

Lemma str_app_cons (c : ascii) (s t : string) :
  String c s +:+ t = String c (s +:+ t).
Proof. reflexivity. Qed.

Lemma str_forall_impl (P Q : ascii → bool) (s : string) :
  (∀ c, P c = true → Q c = true) →
  str_forall P s = true → str_forall Q s = true.
Proof.
  intros HPQ. induction s as [|c s IH]; simpl; [done|].
  intros [Hc Hs]%andb_true_iff. rewrite (HPQ _ Hc). simpl. auto.
Qed.

Lemma str_forall_uint (d : uint) :
  str_forall is_int_char (NilEmpty.string_of_uint d) = true.
Proof. induction d; simpl; auto. Qed.

Lemma str_forall_of_int (n : Z) : str_forall is_int_char (PyStr.of_int n) = true.
Proof.
  unfold PyStr.of_int, NilZero.string_of_int, NilZero.string_of_uint.
  destruct n as [|p|p]; simpl; [done| |].
  - destruct (Pos.to_uint p); try done; apply (str_forall_uint (_ _)).
  - destruct (Pos.to_uint p); try done; apply (str_forall_uint (_ _)).
Qed.

Lemma int_char_not (x : ascii) (c : ascii) :
  is_int_char x = false → is_int_char c = true → negb (Ascii.eqb c x) = true.
Proof.
  intros Hx Hc. destruct (Ascii.eqb_spec c x) as [->|]; [congruence|done].
Qed.

Lemma split_no_sep (sep : ascii) (s : string) :
  str_forall (λ c, negb (Ascii.eqb c sep)) s = true →
  PyStr.split sep s = [s].
Proof.
  induction s as [|c s IH]; simpl; [done|].
  intros [Hc Hs]%andb_true_iff. apply negb_true_iff in Hc. rewrite Hc.
  by rewrite IH.
Qed.

Lemma split_app_sep (sep : ascii) (s1 s2 : string) :
  str_forall (λ c, negb (Ascii.eqb c sep)) s1 = true →
  PyStr.split sep (s1 +:+ String sep s2) = s1 :: PyStr.split sep s2.
Proof.
  induction s1 as [|c s1 IH]; simpl.
  - intros _. by rewrite Ascii.eqb_refl.
  - intros [Hc Hs]%andb_true_iff. apply negb_true_iff in Hc.
    rewrite Hc. by rewrite IH.
Qed.

Lemma replace_go_absent (old new : string) (c0 : ascii) (old' s : string) :
  old = String c0 old' →
  str_forall (λ c, negb (Ascii.eqb c c0)) s = true →
  PyStr.replace_go old new O s = s.
Proof.
  intros ->. induction s as [|c s IH]; [done|].
  intros [Hc Hs]%andb_true_iff. apply negb_true_iff in Hc.
  cbn [PyStr.replace_go String.prefix].
  destruct (ascii_dec c0 c) as [->|_].
  - by rewrite Ascii.eqb_refl in Hc.
  - by rewrite IH.
Qed.

Lemma to_int_of_int (n : Z) : PyStr.to_int (PyStr.of_int n) = Ok n.
Proof.
  unfold PyStr.to_int, PyStr.of_int.
  rewrite NilZero.isi.
  - by rewrite DecimalZ.of_to.
  - destruct n as [|p|p]; simpl; try done.
    intros [= E]. by apply (Unsigned.to_uint_nonnil p).
  - destruct n as [|p|p]; simpl; try done.
    intros [= E]. by apply (Unsigned.to_uint_nonnil p).
Qed.

Lemma of_int_inj (n n' : Z) : PyStr.of_int n = PyStr.of_int n' → n = n'.
Proof.
  intros E. pose proof (to_int_of_int n) as H. rewrite E, to_int_of_int in H.
  by injection H.
Qed.

Lemma prefix_empty (s : string) : String.prefix "" s = true.
Proof. by destruct s. Qed.

Lemma replace_Slot (t : string) :
  str_forall (λ c, negb (Ascii.eqb c "S")) t = true →
  PyStr.replace "Slot" "" ("Slot" +:+ t) = t.
Proof.
  intros Ht. unfold PyStr.replace.
  change ("Slot" +:+ t) with (String "S" (String "l" (String "o" (String "t" t)))).
  cbn [PyStr.replace_go].
  assert (String.prefix "Slot" (String "S" (String "l" (String "o" (String "t" t)))) = true) as ->.
  { cbn. apply prefix_empty. }
  cbn. destruct t as [|c t]; [done|].
  by apply (replace_go_absent "Slot" "" "S" "lot").
Qed.

Lemma of_int_no_char (x : ascii) (n : Z) :
  is_int_char x = false →
  str_forall (λ c, negb (Ascii.eqb c x)) (PyStr.of_int n) = true.
Proof.
  intros Hx. eapply str_forall_impl; [|apply str_forall_of_int].
  intros c. by apply int_char_not.
Qed.

Lemma str_app_assoc (s t u : string) : (s +:+ t) +:+ u = s +:+ (t +:+ u).
Proof. induction s as [|c s IH]; [done|]. by rewrite !str_app_cons, IH. Qed.

Lemma str_forall_app (P : ascii → bool) (s t : string) :
  str_forall P (s +:+ t) = str_forall P s && str_forall P t.
Proof. induction s as [|c s IH]; simpl; [done|]. by rewrite IH, andb_assoc. Qed.

Lemma slot_label_parts (d slot : Z) :
  slot_label d slot
  = day_label d +:+ String "_" ("Slot" +:+ PyStr.of_int (slot + 1)).
Proof. unfold slot_label, day_label. by rewrite str_app_assoc. Qed.

Lemma split_slot_label (d slot : Z) :
  PyStr.split "_" (slot_label d slot)
  = [day_label d; "Slot" +:+ PyStr.of_int (slot + 1)].
Proof.
  rewrite slot_label_parts, split_app_sep, split_no_sep; [done| |].
  - rewrite str_forall_app. by rewrite of_int_no_char.
  - unfold day_label. rewrite str_forall_app. by rewrite of_int_no_char.
Qed.

Lemma day_label_inj (d d' : Z) : day_label d = day_label d' → d = d'.
Proof.
  unfold day_label. intros E%(inj (String.app "Day"))%of_int_inj. lia.
Qed.

Lemma slot_label_inj (d slot d' slot' : Z) :
  slot_label d slot = slot_label d' slot' → d = d' ∧ slot = slot'.
Proof.
  intros E. pose proof (split_slot_label d slot) as H.
  rewrite E, split_slot_label in H. injection H as H1 H2.
  rewrite !str_app_nil in H1, H2. apply of_int_inj in H1, H2. lia.
Qed.

(** The food constraint on a generated label compares the per-day slot
    number with the configured threshold. *)
Lemma food_after_slot_label (config : Config) (a : Assignment)
    (d slot : Z) (value : Activity) :
  food_after_slot config a (slot_label d slot) value
  = Ok (if is_food value
        then slot + 1 >=? default 1 (config !! "food_after_slot")
        else true).
Proof.
  unfold food_after_slot. destruct (is_food value); [|done].
  rewrite split_slot_label. cbn [lookup list_lookup].
  rewrite replace_Slot by (by apply of_int_no_char).
  by rewrite to_int_of_int.
Qed.

End strings.

(** ** Facts about dictionaries *)

Section dict_facts.
Context {K V : Type} `{EqDecision K}.
Implicit Types (d : PyDict.t K V) (k : K) (v : V).

Lemma mem_true k d : PyDict.mem k d = true ↔ k ∈ PyDict.keys d.
Proof. unfold PyDict.mem. by rewrite bool_decide_eq_true. Qed.

Lemma mem_false k d : PyDict.mem k d = false ↔ k ∉ PyDict.keys d.
Proof. unfold PyDict.mem. by rewrite bool_decide_eq_false. Qed.

Lemma keys_app d1 d2 : PyDict.keys (d1 ++ d2) = PyDict.keys d1 ++ PyDict.keys d2.
Proof. unfold PyDict.keys. by rewrite fmap_app. Qed.

Lemma values_app d1 d2 :
  PyDict.values (d1 ++ d2) = PyDict.values d1 ++ PyDict.values d2.
Proof. unfold PyDict.values. by rewrite fmap_app. Qed.

Lemma set_fresh k v d : k ∉ PyDict.keys d → PyDict.set k v d = d ++ [(k, v)].
Proof. intros Hk%mem_false. unfold PyDict.set. by rewrite Hk. Qed.

Lemma filter_fresh k d :
  k ∉ PyDict.keys d → filter (λ kv : K * V, kv.1 ≠ k) d = d.
Proof.
  induction d as [|[k' v'] d IH]; [done|].
  unfold PyDict.keys in *. rewrite fmap_cons. intros [Hne Hk]%not_elem_of_cons.
  rewrite filter_cons_True by (simpl; auto). by rewrite IH.
Qed.

Lemma del_last k v d : k ∉ PyDict.keys d → PyDict.del k (d ++ [(k, v)]) = Ok d.
Proof.
  intros Hk. unfold PyDict.del.
  assert (PyDict.mem k (d ++ [(k, v)]) = true) as ->.
  { apply mem_true. rewrite keys_app. apply elem_of_app. right.
    apply list_elem_of_singleton. done. }
  rewrite filter_app, filter_fresh by done.
  rewrite filter_cons_False by (simpl; auto). by rewrite filter_nil, app_nil_r.
Qed.

Lemma mem_last k v d : PyDict.mem k (d ++ [(k, v)]) = true.
Proof.
  apply mem_true. rewrite keys_app. apply elem_of_app. right.
  apply list_elem_of_singleton. done.
Qed.

Lemma alter_fresh (f : V → V) k v d d' :
  k ∉ PyDict.keys d →
  PyDict.alter f k (d ++ (k, v) :: d') = d ++ (k, f v) :: d'.
Proof.
  induction d as [|[k' v'] d IH]; cbn [app PyDict.alter].
  - intros _. by rewrite decide_True.
  - unfold PyDict.keys in *. rewrite fmap_cons.
    intros [Hne Hk]%not_elem_of_cons. cbn in Hne.
    rewrite decide_False by auto. by rewrite IH.
Qed.

Lemma get_elem_of k v d :
  NoDup (PyDict.keys d) → (k, v) ∈ d → PyDict.get k d = Some v.
Proof.
  induction d as [|[k' v'] d IH]; [by intros _ ?%elem_of_nil|].
  unfold PyDict.keys in *. rewrite fmap_cons. cbn [fst PyDict.get].
  intros [Hk' Hnd]%NoDup_cons [[= -> ->]|Hin]%elem_of_cons.
  - by rewrite decide_True.
  - rewrite decide_False; [by apply IH|].
    intros ->. apply Hk'. by apply (list_elem_of_fmap_2 fst) in Hin.
Qed.

End dict_facts.

(** ** The backtracking search finds the first solution *)

Section list_facts.
Context {A : Type}.

Lemma find_app (f : A → bool) (l1 l2 : list A) :
  List.find f (l1 ++ l2)
  = match List.find f l1 with Some x => Some x | None => List.find f l2 end.
Proof. induction l1 as [|x l1 IH]; [done|]. simpl. by destruct (f x). Qed.

Lemma filter_none (P : A → Prop) `{∀ x, Decision (P x)} (l : list A) :
  Forall (λ x, ¬ P x) l → filter P l = [].
Proof.
  induction 1 as [|x l Hx _ IH]; [done|]. by rewrite filter_cons_False, IH.
Qed.

Lemma filter_all (P : A → Prop) `{∀ x, Decision (P x)} (l : list A) :
  Forall P l → filter P l = l.
Proof.
  induction 1 as [|x l Hx _ IH]; [done|]. by rewrite filter_cons_True, IH.
Qed.

End list_facts.

Lemma find_extend (cs : list Constraint) (a : Assignment)
    (var : string) (value : Activity) (l : list Assignment) :
  List.find (extends_ok cs a) (cons (var, value) <$> l)
  = if check cs a var value
    then cons (var, value) <$> List.find (extends_ok cs (a ++ [(var, value)])) l
    else None.
Proof.
  induction l as [|c l IH]; cbn [fmap list_fmap List.find extends_ok].
  - by destruct (check cs a var value).
  - rewrite IH. destruct (check cs a var value); simpl; [|done].
    by destruct (extends_ok cs (a ++ [(var, value)]) c).
Qed.

Section search.
Context (csp : CSP).
Hypothesis Hnodup : NoDup (variables csp).
Hypothesis Hdoms : ∀ var, var ∈ variables csp → is_Some (domains csp !! var).
Hypothesis Htotal : ∀ a var value, var ∈ variables csp →
  ∃ b, is_consistent (constraints csp) a var value = Ok b.

Lemma next_unassigned (pre rest : list string) (a : Assignment) :
  variables csp = pre ++ rest → PyDict.keys a = pre →
  filter (λ v, PyDict.mem v a = false) (variables csp) = rest.
Proof.
  intros Hvars Hkeys. rewrite Hvars in Hnodup |- *.
  apply NoDup_app in Hnodup as (_ & Hdisj & _).
  rewrite filter_app, filter_none, filter_all; [done| |].
  - apply Forall_forall. intros v Hv. apply mem_false. rewrite Hkeys.
    intros Hpre. by apply (Hdisj v).
  - apply Forall_forall. intros v Hv. rewrite mem_false, Hkeys. auto.
Qed.

Lemma try_values_search (rec : Assignment → res (ret * Assignment))
    (var : string) (rest : list string) (a : Assignment) (dom : list Activity) :
  var ∈ variables csp → var ∉ PyDict.keys a →
  (∀ value, rec (a ++ [(var, value)])
     = search_result (a ++ [(var, value)])
         (List.find (extends_ok (constraints csp) (a ++ [(var, value)]))
                    (candidates (dom_of csp) rest))) →
  try_values rec (constraints csp) var dom a
  = search_result a
      (List.find (extends_ok (constraints csp) a)
         (value ← dom; cons (var, value) <$> candidates (dom_of csp) rest)).
Proof.
  intros Hin Hfresh Hrec. induction dom as [|value dom IH]; [done|].
  cbn [try_values]. destruct (Htotal a var value Hin) as [b Hb].
  rewrite Hb. cbn [bind_res].
  rewrite bind_cons, find_app, find_extend. unfold check. rewrite Hb.
  destruct b; [|done].
  rewrite set_fresh, Hrec by done.
  destruct (List.find _ (candidates _ rest)) as [c|]; cbn.
  - rewrite bool_decide_eq_false_2; cbn.
    + by rewrite <- app_assoc.
    + intros E. by apply app_eq_nil in E as [[? [=]]%app_eq_nil _].
  - by rewrite del_last.
Qed.

Lemma backtrack_search (fuel : nat) (pre rest : list string) (a : Assignment) :
  variables csp = pre ++ rest → PyDict.keys a = pre →
  (length rest < fuel)%nat →
  backtrack fuel csp a
  = search_result a
      (List.find (extends_ok (constraints csp) a) (candidates (dom_of csp) rest)).
Proof.
  revert pre rest a. induction fuel as [|fuel IH]; intros pre rest a Hvars Hkeys Hfuel;
    [lia|].
  cbn [backtrack].
  assert (length a = length pre) as Hlen.
  { rewrite <- Hkeys. unfold PyDict.keys. by rewrite length_fmap. }
  destruct rest as [|var rest].
  - rewrite bool_decide_eq_true_2 by (by rewrite Hvars, app_nil_r).
    cbn. by rewrite app_nil_r.
  - rewrite bool_decide_eq_false_2
      by (rewrite Hvars, length_app, Hlen; cbn; lia).
    rewrite (next_unassigned pre (var :: rest)) by done.
    assert (var ∈ variables csp) as Hin.
    { rewrite Hvars. apply elem_of_app. right. apply elem_of_cons. by left. }
    assert (var ∉ PyDict.keys a) as Hfresh.
    { rewrite Hkeys. rewrite Hvars in Hnodup.
      apply NoDup_app in Hnodup as (_ & Hdisj & _). intros Hpre.
      apply (Hdisj var Hpre). apply elem_of_cons. by left. }
    destruct (Hdoms var Hin) as [dom Hdom]. rewrite Hdom.
    cbn [candidates].
    change (dom_of csp var) with (default [] (domains csp !! var)).
    rewrite Hdom. cbn [default from_option].
    apply try_values_search; [done..|].
    intros value. apply (IH (pre ++ [var])).
    + by rewrite <- app_assoc.
    + rewrite keys_app. by rewrite Hkeys.
    + cbn in Hfuel. lia.
Qed.

(** Started from the empty assignment with enough fuel, [backtrack] returns
    the first solution of the search space, or [None] when there is none. *)
Lemma backtrack_first_solution (fuel : nat) :
  (length (variables csp) < fuel)%nat →
  backtrack fuel csp [] = search_result [] (first_solution csp).
Proof. intros Hfuel. by apply (backtrack_search fuel [] (variables csp)). Qed.

End search.

(** ** The problem built by generate_schedule *)

Section formulation.
Context (activities : list Activity) (num_days : Z) (config : Config).

Local Abbreviation threshold := (default 1 (config !! "food_after_slot")).
Local Abbreviation csp := (make_csp activities num_days config).

Lemma elem_of_py_range (n k : Z) : k ∈ py_range n ↔ 0 ≤ k < n.
Proof. unfold py_range. rewrite elem_of_seqZ. lia. Qed.

Lemma elem_of_make_variables (n m : Z) (var : string) :
  var ∈ make_variables n m
  ↔ ∃ d slot, var = slot_label d slot ∧ 0 ≤ d < n ∧ 0 ≤ slot < m.
Proof.
  unfold make_variables. rewrite list_elem_of_bind. split.
  - intros (d & (slot & Hvar & Hslot)%list_elem_of_bind & Hd).
    apply list_elem_of_singleton in Hvar.
    exists d, slot. by rewrite <- !elem_of_py_range.
  - intros (d & slot & -> & Hd & Hslot). exists d.
    rewrite list_elem_of_bind, elem_of_py_range. split; [|done].
    exists slot. rewrite elem_of_py_range, list_elem_of_singleton. done.
Qed.

Lemma NoDup_make_variables (n m : Z) : NoDup (make_variables n m).
Proof.
  unfold make_variables. apply NoDup_bind; [| |apply NoDup_seqZ].
  - intros d d' var _ _ (s & Hs & _)%list_elem_of_bind
      (s' & Hs' & _)%list_elem_of_bind.
    apply list_elem_of_singleton in Hs, Hs'. subst var.
    by apply slot_label_inj in Hs' as [? _].
  - intros d _. apply NoDup_bind; [| |apply NoDup_seqZ].
    + intros s s' var _ _ Hs%list_elem_of_singleton Hs'%list_elem_of_singleton.
      subst var. by apply slot_label_inj in Hs' as [_ ?].
    + intros s _. apply NoDup_singleton.
Qed.

Lemma make_domains_lookup (vars : list string) (var : string) :
  var ∈ vars → make_domains activities vars !! var = Some activities.
Proof.
  unfold make_domains.
  assert (∀ m : gmap string (list Activity),
    (var ∈ vars ∨ m !! var = Some activities) →
    foldl (λ m var, <[var := activities]> m) m vars !! var = Some activities)
    as Hgen.
  { induction vars as [|v vars IH]; intros m Hm; cbn [foldl].
    - destruct Hm as [Hm|Hm]; [by apply elem_of_nil in Hm|done].
    - apply IH. destruct Hm as [[->|Hm]%elem_of_cons|Hm]; [|by left|].
      + right. apply lookup_insert_eq.
      + right. destruct (decide (v = var)) as [->|Hne].
        * apply lookup_insert_eq.
        * by rewrite lookup_insert_ne. }
  intros Hin. apply Hgen. by left.
Qed.

Lemma dom_of_make_csp (var : string) :
  var ∈ variables csp → dom_of csp var = activities.
Proof.
  intros Hin. unfold dom_of, make_csp. cbn [domains].
  by rewrite make_domains_lookup.
Qed.

(** On a generated label the two constraints amount to: the value is not
    yet used, and a food activity sits at or after the threshold slot. *)
Lemma is_consistent_label (a : Assignment) (d slot : Z) (value : Activity) :
  is_consistent (constraints csp) a (slot_label d slot) value
  = Ok (bool_decide (value ∉ PyDict.values a)
        && (if is_food value then slot + 1 >=? threshold else true)).
Proof.
  unfold make_csp. cbn [constraints is_consistent no_duplicate bind_res].
  rewrite food_after_slot_label. cbn [bind_res].
  destruct (bool_decide (value ∉ PyDict.values a)); [|done].
  cbn. by destruct (if is_food value then _ else _).
Qed.

Lemma make_csp_nodup : NoDup (variables csp).
Proof. apply NoDup_make_variables. Qed.

Lemma make_csp_doms (var : string) :
  var ∈ variables csp → is_Some (domains csp !! var).
Proof.
  intros Hin. exists activities. unfold make_csp. cbn [domains].
  by apply make_domains_lookup.
Qed.

Lemma make_csp_total (a : Assignment) (var : string) (value : Activity) :
  var ∈ variables csp →
  ∃ b, is_consistent (constraints csp) a var value = Ok b.
Proof.
  intros (d & slot & -> & _)%elem_of_make_variables.
  eexists. apply is_consistent_label.
Qed.

(** The search run by [generate_schedule] returns the first solution. *)
Lemma make_csp_backtrack (fuel : nat) :
  (length (variables csp) < fuel)%nat →
  backtrack fuel csp [] = search_result [] (first_solution csp).
Proof.
  apply backtrack_first_solution;
    [apply make_csp_nodup|apply make_csp_doms|apply make_csp_total].
Qed.

End formulation.

(** ** The search space and its solutions *)

Section search_space.
Context (doms : string → list Activity).

Lemma candidates_keys (vars : list string) (c : Assignment) :
  c ∈ candidates doms vars → PyDict.keys c = vars.
Proof.
  revert c. induction vars as [|var vars IH]; intros c; cbn [candidates].
  - by intros ->%list_elem_of_singleton.
  - intros (value & (c' & -> & Hc')%list_elem_of_fmap & _)%list_elem_of_bind.
    unfold PyDict.keys in *. rewrite fmap_cons. cbn. by rewrite IH.
Qed.

Lemma candidates_values (vars : list string) (c : Assignment)
    (var : string) (value : Activity) :
  c ∈ candidates doms vars → (var, value) ∈ c → value ∈ doms var.
Proof.
  revert c. induction vars as [|var' vars IH]; intros c; cbn [candidates].
  - intros ->%list_elem_of_singleton Hin. by apply elem_of_nil in Hin.
  - intros (value' & (c' & -> & Hc')%list_elem_of_fmap & Hd)%list_elem_of_bind.
    intros [[= -> ->]|Hin]%elem_of_cons; [done|]. by apply (IH c').
Qed.

Lemma length_bind_const {A B} (f : A → list B) (l : list A) (k : nat) :
  (∀ x, x ∈ l → length (f x) = k) → length (l ≫= f) = (length l * k)%nat.
Proof.
  induction l as [|x l IH]; intros Hk; [done|].
  rewrite bind_cons, length_app, IH, Hk; [done|by left|].
  intros y Hy. apply Hk. by right.
Qed.

Lemma candidates_length (vars : list string) (acts : list Activity) :
  (∀ var, var ∈ vars → doms var = acts) →
  length (candidates doms vars) = (length acts ^ length vars)%nat.
Proof.
  induction vars as [|var vars IH]; intros Hdoms; [done|].
  cbn [candidates length Nat.pow].
  rewrite (length_bind_const _ _ (length acts ^ length vars)).
  - rewrite Hdoms by by left. done.
  - intros value _. rewrite length_fmap. apply IH.
    intros v Hv. apply Hdoms. by right.
Qed.

End search_space.

Section solutions.
Context (cs : list Constraint).

Lemma extends_ok_app (a c1 c2 : Assignment) :
  extends_ok cs a (c1 ++ c2)
  = extends_ok cs a c1 && extends_ok cs (a ++ c1) c2.
Proof.
  revert a. induction c1 as [|[var value] c1 IH]; intros a.
  - by rewrite app_nil_r.
  - cbn [app extends_ok]. rewrite IH, <- app_assoc. cbn [app].
    by rewrite andb_assoc.
Qed.

(** Every entry of a solution passed the constraints against the entries
    before it. *)
Lemma extends_ok_entry (c1 c2 : Assignment) (var : string) (value : Activity) :
  extends_ok cs [] (c1 ++ (var, value) :: c2) = true →
  is_consistent cs c1 var value = Ok true.
Proof.
  rewrite extends_ok_app. cbn [extends_ok app].
  intros [_ [Hc _]%andb_true_iff]%andb_true_iff. unfold check in Hc.
  by destruct (is_consistent cs c1 var value) as [[]| |].
Qed.

End solutions.

(** ** Solutions of the scheduling problem *)

Section schedule_solutions.
Context (activities : list Activity) (num_days : Z) (config : Config).

Local Abbreviation threshold := (default 1 (config !! "food_after_slot")).
Local Abbreviation max_per_day := (default 3 (config !! "max_per_day")).
Local Abbreviation csp := (make_csp activities num_days config).

Lemma solution_NoDup (c : Assignment) :
  Forall is_label (PyDict.keys c) →
  extends_ok (constraints csp) [] c = true →
  NoDup (PyDict.values c).
Proof.
  induction c as [|[var value] c IH] using rev_ind; [constructor|].
  rewrite keys_app, values_app, Forall_app, extends_ok_app.
  intros [Hc Hvar] [Hok Hlast]%andb_true_iff.
  apply Forall_singleton in Hvar as (d & slot & Hvar). cbn in Hvar. subst var.
  cbn [extends_ok app] in Hlast. apply andb_true_iff in Hlast as [Hlast _].
  unfold check in Hlast. rewrite (is_consistent_label activities) in Hlast.
  apply NoDup_app. split_and!; [by apply IH| |apply NoDup_singleton].
  intros x Hx ->%list_elem_of_singleton.
  destruct (bool_decide (value ∉ PyDict.values c)) eqn:Hfresh; [|done].
  by apply bool_decide_eq_true in Hfresh.
Qed.

Lemma solution_food (c : Assignment) (d slot : Z) (value : Activity) :
  extends_ok (constraints csp) [] c = true →
  (slot_label d slot, value) ∈ c → is_food value = true →
  threshold ≤ slot + 1.
Proof.
  intros Hok (c1 & c2 & ->)%list_elem_of_split Hfood.
  apply extends_ok_entry in Hok.
  rewrite (is_consistent_label activities), Hfood in Hok.
  injection Hok as [_ Hge]%andb_true_iff. lia.
Qed.

End schedule_solutions.

(** ** Regrouping by day *)

Section formatting.

Lemma format_step_new (final : Days) (item : string * Activity) (day_key : string) :
  PyStr.split "_" item.1 !! 0%nat = Some day_key →
  day_key ∉ PyDict.keys final →
  format_step final item = Ok (final ++ [(day_key, [item.2])]).
Proof.
  intros Hsplit Hfresh. unfold format_step. rewrite Hsplit.
  rewrite (proj2 (mem_false _ _) Hfresh). cbn [negb].
  rewrite set_fresh by done.
  rewrite mem_last. by rewrite alter_fresh.
Qed.

Lemma format_step_last (final : Days) (item : string * Activity)
    (day_key : string) (l : list Activity) :
  PyStr.split "_" item.1 !! 0%nat = Some day_key →
  day_key ∉ PyDict.keys final →
  format_step (final ++ [(day_key, l)]) item
  = Ok (final ++ [(day_key, l ++ [item.2])]).
Proof.
  intros Hsplit Hfresh. unfold format_step. rewrite Hsplit.
  rewrite mem_last. cbn [negb]. rewrite mem_last. by rewrite alter_fresh.
Qed.

Lemma format_days_app (items items' : Assignment) (final : Days) :
  format_days (items ++ items') final
  = bind_res (format_days items final) (format_days items').
Proof.
  revert final. induction items as [|item items IH]; intros final; [done|].
  cbn [app format_days]. destruct (format_step final item); cbn; auto.
Qed.

(** Items of one day extend the list of that day once it is the entry
    added last. *)
Lemma format_days_same_day (items : Assignment) (final : Days)
    (day_key : string) (l : list Activity) :
  Forall (λ item, PyStr.split "_" item.1 !! 0%nat = Some day_key) items →
  day_key ∉ PyDict.keys final →
  format_days items (final ++ [(day_key, l)])
  = Ok (final ++ [(day_key, l ++ PyDict.values items)]).
Proof.
  intros Hitems Hfresh. revert l.
  induction Hitems as [|item items Hitem _ IH]; intros l.
  - cbn. by rewrite app_nil_r.
  - cbn [format_days]. rewrite (format_step_last _ _ _ _ Hitem Hfresh).
    cbn [bind_res]. rewrite IH. unfold PyDict.values.
    by rewrite fmap_cons, <- app_assoc.
Qed.

Lemma format_days_new_day (item : string * Activity) (items : Assignment)
    (final : Days) (day_key : string) :
  Forall (λ item, PyStr.split "_" item.1 !! 0%nat = Some day_key) (item :: items) →
  day_key ∉ PyDict.keys final →
  format_days (item :: items) final
  = Ok (final ++ [(day_key, PyDict.values (item :: items))]).
Proof.
  intros [Hitem Hitems]%Forall_cons Hfresh.
  cbn [format_days]. rewrite (format_step_new _ _ _ Hitem Hfresh).
  cbn [bind_res]. by rewrite format_days_same_day.
Qed.

Lemma bind_singleton_fmap {A B} (f : A → B) (l : list A) :
  (x ← l; [f x]) = f <$> l.
Proof. induction l as [|x l IH]; [done|]. by rewrite bind_cons, IH. Qed.

Lemma values_assigned (c items : Assignment) :
  NoDup (PyDict.keys c) → (∀ item, item ∈ items → item ∈ c) →
  PyDict.values items = assigned c <$> PyDict.keys items.
Proof.
  intros Hnd. induction items as [|[var value] items IH]; intros Hsub; [done|].
  unfold PyDict.values, PyDict.keys in *. rewrite !fmap_cons. cbn [fst snd].
  rewrite IH by (intros item Hitem; apply Hsub; by right).
  f_equal. unfold assigned. rewrite (get_elem_of var value); [done..|].
  apply Hsub. by left.
Qed.

Lemma format_days_rows (c : Assignment) (max_per_day : Z) (ds : list Z) :
  NoDup (PyDict.keys c) → 0 < max_per_day → NoDup ds →
  ∀ (items : Assignment) (final : Days),
    (∀ d, d ∈ ds → day_label d ∉ PyDict.keys final) →
    (∀ item, item ∈ items → item ∈ c) →
    PyDict.keys items = (d ← ds; slot ← py_range max_per_day; [slot_label d slot]) →
    format_days items final = Ok (final ++ (day_row c max_per_day <$> ds)).
Proof.
  intros Hnd Hpos. induction 1 as [|d ds Hd Hds IH];
    intros items final Hfresh Hsub Hkeys.
  - apply fmap_nil_inv in Hkeys as ->. cbn. by rewrite app_nil_r.
  - rewrite bind_cons, bind_singleton_fmap in Hkeys.
    set (m := length (py_range max_per_day)).
    assert (PyDict.keys (take m items) = slot_label d <$> py_range max_per_day)
      as Hrow.
    { unfold PyDict.keys in *. rewrite fmap_take, Hkeys.
      apply take_app_length'. by rewrite length_fmap. }
    assert (PyDict.keys (drop m items)
            = (d ← ds; slot ← py_range max_per_day; [slot_label d slot]))
      as Hrest.
    { unfold PyDict.keys in *. rewrite fmap_drop, Hkeys.
      apply drop_app_length'. by rewrite length_fmap. }
    rewrite <- (take_drop m items), format_days_app.
    assert (Forall (λ item, PyStr.split "_" item.1 !! 0%nat = Some (day_label d))
              (take m items)) as Hday.
    { apply Forall_forall. intros item Hitem.
      apply (list_elem_of_fmap_2 fst) in Hitem. fold (PyDict.keys (take m items)) in Hitem.
      rewrite Hrow in Hitem. apply list_elem_of_fmap in Hitem as (slot & -> & _).
      by rewrite split_slot_label. }
    destruct (take m items) as [|item block] eqn:Hblock.
    { exfalso. unfold py_range in Hrow.
      assert (length (seqZ 0 max_per_day) = 0%nat) as Hlen.
      { apply (f_equal length) in Hrow. by rewrite length_fmap in Hrow. }
      rewrite length_seqZ in Hlen. lia. }
    rewrite (format_days_new_day _ _ _ (day_label d)); [|done|].
    2:{ apply Hfresh. by left. }
    cbn [bind_res]. rewrite IH; [| | |done].
    + rewrite <- app_assoc. cbn [app fmap list_fmap]. do 2 f_equal.
      unfold day_row at 2. f_equal.
      rewrite (values_assigned c), Hrow, <- list_fmap_compose; [done..|].
      intros x Hx. apply Hsub. rewrite <- (take_drop m items), Hblock.
      apply elem_of_app. by left.
    + intros d' Hd'. rewrite keys_app. intros [Hin|Hin]%elem_of_app.
      * by apply (Hfresh d'); [right|].
      * apply list_elem_of_singleton in Hin. cbn in Hin.
        apply day_label_inj in Hin as ->. done.
    + intros x Hx. apply Hsub. rewrite <- (take_drop m items).
      apply elem_of_app. by right.
Qed.

End formatting.

(** ** What generate_schedule returns *)

Lemma first_solution_Some (csp : CSP) (c : Assignment) :
  first_solution csp = Some c →
  c ∈ candidates (dom_of csp) (variables csp)
  ∧ extends_ok (constraints csp) [] c = true.
Proof.
  intros [Hin Hok]%List.find_some. by apply list_elem_of_In in Hin.
Qed.

Lemma first_solution_None (csp : CSP) (c : Assignment) :
  first_solution csp = None →
  c ∈ candidates (dom_of csp) (variables csp) →
  extends_ok (constraints csp) [] c = false.
Proof.
  intros Hnone Hin%list_elem_of_In. by apply (List.find_none _ _ Hnone).
Qed.

Section generate_schedule_facts.
Context (activities : list Activity) (start_date end_date : Z) (config : Config).

Local Abbreviation num_days := (end_date - start_date + 1).
Local Abbreviation max_per_day := (default 3 (config !! "max_per_day")).
Local Abbreviation threshold := (default 1 (config !! "food_after_slot")).
Local Abbreviation csp := (make_csp activities num_days config).

Lemma solution_keys (c : Assignment) :
  first_solution csp = Some c →
  PyDict.keys c = make_variables num_days max_per_day.
Proof. intros [Hin _]%first_solution_Some. by apply candidates_keys in Hin. Qed.

Lemma solution_nonempty (c : Assignment) :
  first_solution csp = Some c → c ≠ [] → 0 < num_days ∧ 0 < max_per_day.
Proof.
  intros Hkeys%solution_keys Hne.
  destruct c as [|[var value] c]; [done|].
  assert (var ∈ make_variables num_days max_per_day) as Hvar.
  { rewrite <- Hkeys. unfold PyDict.keys. rewrite fmap_cons. by left. }
  apply elem_of_make_variables in Hvar as (d & slot & _ & Hd & Hslot). lia.
Qed.

(** [generate_schedule] returns the first solution of the search space
    regrouped by day, and the no-solution message when there is none or
    when it is the empty assignment. *)
Lemma generate_schedule_spec :
  generate_schedule activities start_date end_date config
  = match first_solution csp with
    | Some c =>
        if bool_decide (c = []) then Ok no_solution
        else Ok (schedule_obj (by_day c num_days max_per_day))
    | None => Ok no_solution
    end.
Proof.
  unfold generate_schedule. cbv zeta.
  rewrite make_csp_backtrack by lia.
  destruct (first_solution csp) as [c|] eqn:Hsol; [|done].
  cbn [search_result bind_res app fst snd truthy].
  destruct (bool_decide (c = [])) eqn:Hc; cbn [negb]; [done|].
  apply bool_decide_eq_false in Hc.
  destruct (solution_nonempty c Hsol Hc) as [_ Hpos].
  pose proof (solution_keys c Hsol) as Hkeys.
  rewrite (format_days_rows c max_per_day (py_range num_days)); [done| | | | | |].
  - rewrite Hkeys. apply NoDup_make_variables.
  - done.
  - apply NoDup_seqZ.
  - intros d _. apply not_elem_of_nil.
  - done.
  - done.
Qed.

End generate_schedule_facts.

(** ** Further facts used by the properties *)

Lemma make_variables_nil (n m : Z) : n ≤ 0 ∨ m ≤ 0 → make_variables n m = [].
Proof.
  intros Hnm. destruct (make_variables n m) as [|var vars] eqn:Hvars; [done|].
  assert (var ∈ make_variables n m) as Hin by (rewrite Hvars; by left).
  apply elem_of_make_variables in Hin as (d & slot & _ & Hd & Hslot). lia.
Qed.

Lemma length_make_variables (n m : Z) :
  length (make_variables n m) = (Z.to_nat n * Z.to_nat m)%nat.
Proof.
  unfold make_variables. rewrite (length_bind_const _ _ (Z.to_nat m)).
  - unfold py_range. by rewrite length_seqZ.
  - intros d _. rewrite bind_singleton_fmap, length_fmap.
    unfold py_range. by rewrite length_seqZ.
Qed.

Lemma candidates_ext (doms doms' : string → list Activity) (vars : list string) :
  (∀ var, var ∈ vars → doms var = doms' var) →
  candidates doms vars = candidates doms' vars.
Proof.
  induction vars as [|var vars IH]; intros Hdoms; [done|].
  cbn [candidates]. rewrite Hdoms by by left.
  rewrite IH; [done|]. intros v Hv. apply Hdoms. by right.
Qed.

Lemma find_ext_in {A} (f g : A → bool) (l : list A) :
  (∀ x, x ∈ l → f x = g x) → List.find f l = List.find g l.
Proof.
  induction l as [|x l IH]; intros Hfg; [done|]. cbn.
  rewrite (Hfg x) by by left. rewrite IH; [done|].
  intros y Hy. apply Hfg. by right.
Qed.

Lemma elem_of_keys_assigned (c : Assignment) (var : string) :
  var ∈ PyDict.keys c → (var, assigned c var) ∈ c.
Proof.
  unfold assigned. induction c as [|[var' value] c IH].
  - by intros ?%elem_of_nil.
  - unfold PyDict.keys in *. rewrite fmap_cons. cbn [fst PyDict.get].
    destruct (decide (var' = var)) as [->|Hne].
    + intros _. by left.
    + intros [?|Hin]%elem_of_cons; [congruence|]. right. by apply IH.
Qed.

Lemma scheduled_schedule_obj (final : Days) :
  scheduled (schedule_obj final) = concat final.*2.
Proof.
  unfold scheduled, day_lists, schedule_obj. f_equal.
  induction final as [|[day l] final IH]; [done|]. cbn. by rewrite IH.
Qed.

Lemma elem_of_schedule_obj (final : Days) (day : string) (o : pyobj) :
  (day, o) ∈ schedule_obj final ↔ ∃ l, o = OList l ∧ (day, l) ∈ final.
Proof.
  unfold schedule_obj. rewrite list_elem_of_fmap. split.
  - intros ([day' l] & [= -> ->] & Hin). by exists l.
  - intros (l & -> & Hin). by exists (day, l).
Qed.

Lemma schedule_obj_not_message (final : Days) : schedule_obj final ≠ no_solution.
Proof. by destruct final as [|[day l] final]. Qed.

Lemma by_day_concat (c : Assignment) (n m : Z) :
  concat (by_day c n m).*2 = assigned c <$> make_variables n m.
Proof.
  unfold by_day, make_variables. induction (py_range n) as [|d ds IH]; [done|].
  rewrite !fmap_cons, bind_cons, fmap_app, bind_singleton_fmap. cbn [concat].
  rewrite IH. f_equal. unfold day_row. cbn [snd].
  by rewrite <- list_fmap_compose.
Qed.

Lemma elem_of_by_day (c : Assignment) (n m : Z) (day : string) (l : list Activity) :
  (day, l) ∈ by_day c n m
  ↔ ∃ d, 0 ≤ d < n ∧ day = day_label d
         ∧ l = (λ slot, assigned c (slot_label d slot)) <$> py_range m.
Proof.
  unfold by_day. rewrite list_elem_of_fmap. unfold day_row.
  setoid_rewrite elem_of_py_range. split.
  - intros (d & [= -> ->] & Hd). by exists d.
  - intros (d & Hd & -> & ->). by exists d.
Qed.

Section produced_schedules.
Context (activities : list Activity) (start_date end_date : Z) (config : Config).

Local Abbreviation num_days := (end_date - start_date + 1).
Local Abbreviation max_per_day := (default 3 (config !! "max_per_day")).
Local Abbreviation threshold := (default 1 (config !! "food_after_slot")).
Local Abbreviation csp := (make_csp activities num_days config).

Lemma first_solution_no_variables (p : CSP) :
  variables p = [] → first_solution p = Some [].
Proof. unfold first_solution. by intros ->. Qed.

Lemma generate_schedule_no_variables :
  variables csp = [] →
  generate_schedule activities start_date end_date config = Ok no_solution.
Proof.
  intros Hvars. rewrite generate_schedule_spec.
  by rewrite (first_solution_no_variables _ Hvars).
Qed.

Lemma no_variables_iff : variables csp = [] ↔ num_days ≤ 0 ∨ max_per_day ≤ 0.
Proof.
  split; [|apply make_variables_nil].
  intros Hvars. apply (f_equal length) in Hvars.
  cbn [make_csp variables] in Hvars. rewrite length_make_variables in Hvars.
  cbn [length] in Hvars. nia.
Qed.

(** A produced schedule is the first solution, regrouped by day. *)
Lemma generate_schedule_produces (out : Output) :
  generate_schedule activities start_date end_date config = Ok out →
  out ≠ no_solution →
  ∃ c, first_solution csp = Some c ∧ c ≠ []
       ∧ out = schedule_obj (by_day c num_days max_per_day).
Proof.
  rewrite generate_schedule_spec. intros Hout Hne.
  destruct (first_solution csp) as [c|]; [|by injection Hout as <-].
  destruct (bool_decide (c = [])) eqn:Hc; [by injection Hout as <-|].
  apply bool_decide_eq_false in Hc. injection Hout as <-. by exists c.
Qed.

Lemma solution_labels (c : Assignment) :
  first_solution csp = Some c → Forall is_label (PyDict.keys c).
Proof.
  intros ->%solution_keys. apply Forall_forall.
  intros var (d & slot & -> & _)%elem_of_make_variables. by exists d, slot.
Qed.

Lemma solution_keys_NoDup (c : Assignment) :
  first_solution csp = Some c → NoDup (PyDict.keys c).
Proof. intros ->%solution_keys. apply NoDup_make_variables. Qed.

Lemma solution_values (c : Assignment) :
  first_solution csp = Some c → PyDict.values c = assigned c <$> PyDict.keys c.
Proof. intros Hsol. apply values_assigned; [by apply solution_keys_NoDup|done]. Qed.

End produced_schedules.

Lemma is_consistent_total (cs : list Constraint) (P : string → Prop) :
  Forall (λ k : Constraint, ∀ a var value, P var → ∃ b, k a var value = Ok b) cs →
  ∀ a var value, P var → ∃ b, is_consistent cs a var value = Ok b.
Proof.
  induction 1 as [|k cs Hk _ IH]; intros a var value Hvar; [by exists true|].
  cbn [is_consistent]. destruct (Hk a var value Hvar) as [b ->]. cbn [bind_res].
  destruct b; cbn [negb]; [by apply IH|by exists false].
Qed.

Lemma make_csp_constraints_total (activities : list Activity) (num_days : Z)
    (config : Config) :
  Forall (λ k : Constraint, ∀ a var value,
            var ∈ variables (make_csp activities num_days config) →
            ∃ b, k a var value = Ok b)
         (constraints (make_csp activities num_days config)).
Proof.
  cbn [make_csp constraints variables]. repeat apply Forall_cons_2.
  - intros a var value _. by eexists.
  - intros a var value (d & slot & -> & _)%elem_of_make_variables.
    eexists. apply food_after_slot_label.
  - constructor.
Qed.

(** The threshold of the food constraint does not matter once it is at
    most 1, since slot numbers start at 1. *)
Lemma extends_ok_threshold (activities : list Activity) (num_days : Z)
    (config config' : Config) (c : Assignment) :
  default 1 (config !! "food_after_slot") ≤ 1 →
  default 1 (config' !! "food_after_slot") ≤ 1 →
  Forall (λ var, ∃ d slot, var = slot_label d slot ∧ 0 ≤ slot) (PyDict.keys c) →
  ∀ a, extends_ok (constraints (make_csp activities num_days config)) a c
       = extends_ok (constraints (make_csp activities num_days config')) a c.
Proof.
  intros Hthr Hthr'. induction c as [|[var value] c IH]; [done|].
  unfold PyDict.keys in *. rewrite fmap_cons.
  intros [(d & slot & Hvar & Hslot) Hc]%Forall_cons a. cbn in Hvar. subst var.
  cbn [extends_ok]. rewrite IH by done. f_equal.
  unfold check. rewrite !is_consistent_label.
  destruct (is_food value); [|done].
  by rewrite !(proj2 (Z.geb_le _ _)) by lia.
Qed.

Lemma first_solution_threshold (activities : list Activity) (num_days : Z)
    (config config' : Config) :
  config' !! "max_per_day" = config !! "max_per_day" →
  default 1 (config !! "food_after_slot") ≤ 1 →
  default 1 (config' !! "food_after_slot") ≤ 1 →
  first_solution (make_csp activities num_days config)
  = first_solution (make_csp activities num_days config').
Proof.
  intros Hmax Hthr Hthr'. unfold first_solution.
  rewrite (candidates_ext _ (λ _, activities)) by apply dom_of_make_csp.
  rewrite (candidates_ext (dom_of (make_csp activities num_days config'))
             (λ _, activities)) by apply dom_of_make_csp.
  cbn [make_csp variables]. rewrite Hmax.
  apply find_ext_in. intros c Hc%candidates_keys.
  apply extends_ok_threshold; [done..|]. rewrite Hc. apply Forall_forall.
  intros var (d & slot & -> & _ & Hslot)%elem_of_make_variables.
  exists d, slot. split; [done|lia].
Qed.

Lemma generate_schedule_ok (activities : list Activity)
    (start_date end_date : Z) (config : Config) :
  ∃ out, generate_schedule activities start_date end_date config = Ok out.
Proof.
  rewrite generate_schedule_spec.
  destruct (first_solution _) as [c|]; [|by eexists].
  destruct (bool_decide (c = [])); by eexists.
Qed.

Lemma message_not_day (d : Z) : "message" ≠ day_label d.
Proof. unfold day_label. discriminate. Qed.

(** ** Scenarios *)

Example scenario_A :
  generate_schedule [museum; lunch; park] 100 100 (cfg 3 2)
  = Ok [("Day1", OList [museum; lunch; park])].
Proof. vm_compute. reflexivity. Qed.

Example scenario_A_food_first :
  generate_schedule [lunch; museum; park] 100 100 (cfg 3 2)
  = Ok [("Day1", OList [museum; lunch; park])].
Proof. vm_compute. reflexivity. Qed.

Example scenario_B :
  generate_schedule [museum; lunch; park] 100 101 (cfg 3 1) = Ok no_solution.
Proof. vm_compute. reflexivity. Qed.

Example scenario_C :
  generate_schedule [museum; lunch; park] 100 100 (cfg 3 4) = Ok no_solution.
Proof. vm_compute. reflexivity. Qed.

Example scenario_D :
  generate_schedule [museum; lunch; park; zoo] 100 100 (cfg 2 1)
  = Ok [("Day1", OList [museum; lunch])].
Proof. vm_compute. reflexivity. Qed.

Example scenario_two_days :
  generate_schedule [lunch; museum; park; zoo] 100 101 (cfg 2 2)
  = Ok [("Day1", OList [museum; lunch]); ("Day2", OList [park; zoo])].
Proof. vm_compute. reflexivity. Qed.

(** The threshold applies to the slot number within the day: with
    threshold 3 and two slots a day, the food activity may not take slot 1
    of day 2, although that is the third slot overall. *)
Example scenario_per_day_index :
  generate_schedule [museum; park; lunch; zoo] 100 101 (cfg 2 3) = Ok no_solution.
Proof. vm_compute. reflexivity. Qed.

Example scenario_E :
  generate_schedule [museum; lunch; park] 100 99 (cfg 3 1) = Ok no_solution.
Proof. vm_compute. reflexivity. Qed.

(** ** The properties of the specification *)

(** C1, as the code behaves.  A range whose end lies strictly before its
    start is not rejected: no slot variable is generated and the call
    returns the no-solution message. *)
Theorem inverted_range_no_solution (activities : list Activity)
    (start_date end_date : Z) (config : Config) :
  end_date < start_date →
  generate_schedule activities start_date end_date config = Ok no_solution.
Proof.
  intros Hlt. apply generate_schedule_no_variables.
  apply make_variables_nil. lia.
Qed.

Lemma inverted_range_no_solution_witness :
  99 < 100 ∧ generate_schedule [museum; lunch; park] 100 99 (cfg 3 1) = Ok no_solution.
Proof.
  split; [lia|]. apply (inverted_range_no_solution [museum; lunch; park] 100 99).
  lia.
Defined.

(** C1 as stated fails: with the end date before the start date the call
    is not answered by an input error. *)
Lemma inverted_range_not_rejected :
  99 < 100
  ∧ ¬ is_error (generate_schedule [museum; lunch; park] 100 99 (cfg 3 1)).
Proof. split; [lia|]. vm_compute. tauto. Qed.

(** C10.  When the formulation has no slot variable, the search returns the
    empty assignment, which [if not result] takes for a failure: the call
    returns the no-solution message. *)
Theorem zero_variables_conflated (activities : list Activity)
    (start_date end_date : Z) (config : Config) :
  variables (make_csp activities (end_date - start_date + 1) config) = [] →
  (∀ fuel, backtrack (S fuel)
             (make_csp activities (end_date - start_date + 1) config) []
           = Ok (RetAssignment, []))
  ∧ truthy RetAssignment [] = false
  ∧ generate_schedule activities start_date end_date config = Ok no_solution.
Proof.
  intros Hvars. split_and!.
  - intros fuel. cbn [backtrack]. by rewrite Hvars.
  - done.
  - by apply generate_schedule_no_variables.
Qed.

Lemma zero_variables_conflated_witness :
  variables (make_csp [museum; lunch; park] (100 - 100 + 1) (cfg 0 1)) = []
  ∧ generate_schedule [museum; lunch; park] 100 100 (cfg 0 1) = Ok no_solution.
Proof.
  split; [vm_compute; reflexivity|].
  apply (zero_variables_conflated [museum; lunch; park] 100 100 (cfg 0 1)).
  vm_compute. reflexivity.
Defined.

(** C3.  In a produced schedule no activity value occurs twice, over all
    days together. *)
Theorem no_duplicates (activities : list Activity)
    (start_date end_date : Z) (config : Config) (out : Output) :
  generate_schedule activities start_date end_date config = Ok out →
  out ≠ no_solution →
  NoDup (scheduled out).
Proof.
  intros Hout Hne.
  destruct (generate_schedule_produces _ _ _ _ _ Hout Hne) as (c & Hsol & _ & ->).
  rewrite scheduled_schedule_obj, by_day_concat.
  rewrite <- (solution_keys _ _ _ _ _ Hsol), <- (solution_values _ _ _ _ _ Hsol).
  apply (solution_NoDup activities (end_date - start_date + 1) config).
  - by apply (solution_labels activities start_date end_date config).
  - by apply first_solution_Some in Hsol as [_ ?].
Qed.

Lemma no_duplicates_witness :
  NoDup (scheduled [("Day1", OList [museum; lunch]); ("Day2", OList [park; zoo])]).
Proof.
  apply (no_duplicates [lunch; museum; park; zoo] 100 101 (cfg 2 2)).
  - vm_compute. reflexivity.
  - discriminate.
Defined.

(** C4.  In a produced schedule a food activity at position [i] (counted
    from 0) of a day's list, that is in slot [i + 1] of that day, satisfies
    [food_after_slot <= i + 1]; the index is the one within the day. *)
Theorem food_ordering (activities : list Activity)
    (start_date end_date : Z) (config : Config) (out : Output)
    (day : string) (l : list Activity) (i : nat) (x : Activity) :
  generate_schedule activities start_date end_date config = Ok out →
  (day, OList l) ∈ out →
  l !! i = Some x →
  is_food x = true →
  default 1 (config !! "food_after_slot") ≤ Z.of_nat i + 1.
Proof.
  intros Hout Hday Hi Hfood.
  assert (out ≠ no_solution) as Hne.
  { intros ->. by apply list_elem_of_singleton in Hday. }
  destruct (generate_schedule_produces _ _ _ _ _ Hout Hne) as (c & Hsol & _ & ->).
  apply elem_of_schedule_obj in Hday as (l' & [= <-] & Hday).
  apply elem_of_by_day in Hday as (d & Hd & -> & ->).
  rewrite list_lookup_fmap in Hi.
  destruct (py_range _ !! i) as [slot|] eqn:Hslot; [|done].
  injection Hi as <-. unfold py_range in Hslot.
  apply lookup_seqZ in Hslot as [-> Hlt].
  replace (Z.of_nat i + 1) with (0 + Z.of_nat i + 1) by lia.
  eapply (solution_food activities (end_date - start_date + 1) config c d);
    [| |exact Hfood].
  - by apply first_solution_Some in Hsol as [_ ?].
  - apply elem_of_keys_assigned. rewrite (solution_keys _ _ _ _ _ Hsol).
    apply elem_of_make_variables. exists d, (0 + Z.of_nat i). split; [done|lia].
Qed.

Lemma food_ordering_witness :
  default 1 (cfg 2 2 !! "food_after_slot") ≤ Z.of_nat 1 + 1.
Proof.
  apply (food_ordering [lunch; museum; park; zoo] 100 101 (cfg 2 2)
           [("Day1", OList [museum; lunch]); ("Day2", OList [park; zoo])]
           "Day1" [museum; lunch] 1 lunch).
  - vm_compute. reflexivity.
  - apply list_elem_of_here.
  - reflexivity.
  - vm_compute. reflexivity.
Defined.

(** C5.  The call returns the no-solution message or a complete schedule:
    one key per day of the range, in day order, each holding exactly
    [max_per_day] activities (so at most that many, and no slot is left
    empty), as many activities in all as there are slot variables. *)
Theorem complete_or_no_solution (activities : list Activity)
    (start_date end_date : Z) (config : Config) :
  ∃ out,
    generate_schedule activities start_date end_date config = Ok out
    ∧ (out = no_solution
       ∨ (Z.of_nat (length out) = end_date - start_date + 1
          ∧ PyDict.keys out = day_label <$> py_range (end_date - start_date + 1)
          ∧ (∀ day o, (day, o) ∈ out →
               ∃ l, o = OList l
                    ∧ Z.of_nat (length l) = default 3 (config !! "max_per_day"))
          ∧ length (scheduled out)
            = length (variables
                (make_csp activities (end_date - start_date + 1) config)))).
Proof.
  rewrite generate_schedule_spec.
  destruct (first_solution _) as [c|] eqn:Hsol; [|exists no_solution; auto].
  destruct (bool_decide (c = [])) eqn:Hc; [exists no_solution; auto|].
  apply bool_decide_eq_false in Hc.
  destruct (solution_nonempty _ _ _ _ c Hsol Hc) as [Hdays Hslots].
  eexists. split; [done|]. right. split_and!.
  - unfold schedule_obj, by_day, py_range.
    rewrite !length_fmap, length_seqZ. lia.
  - unfold PyDict.keys, schedule_obj, by_day.
    rewrite <- !list_fmap_compose. by apply list_fmap_ext.
  - intros day o (l & -> & Hday)%elem_of_schedule_obj.
    apply elem_of_by_day in Hday as (d & _ & _ & ->).
    exists ((λ slot, assigned c (slot_label d slot))
              <$> py_range (default 3 (config !! "max_per_day"))).
    split; [done|]. unfold py_range. rewrite length_fmap, length_seqZ. lia.
  - rewrite scheduled_schedule_obj, by_day_concat. by rewrite length_fmap.
Qed.

(** C6.  The result is a function of the inputs alone: the search returns
    the first candidate, in the enumeration order given by the day-major,
    slot-minor variables and the supplied order of the activities, that
    satisfies the constraints, whatever the fuel above the number of
    variables; [generate_schedule] returns that candidate by day, or the
    no-solution message. *)
Theorem deterministic_first_found (activities : list Activity)
    (start_date end_date : Z) (config : Config) :
  let num_days := end_date - start_date + 1 in
  let max_per_day := default 3 (config !! "max_per_day") in
  let vars := make_variables num_days max_per_day in
  let first :=
    List.find (extends_ok [no_duplicate; food_after_slot config] [])
              (candidates (λ _, activities) vars) in
  (∀ fuel, (length vars < fuel)%nat →
     backtrack fuel (make_csp activities num_days config) []
     = search_result [] first)
  ∧ generate_schedule activities start_date end_date config
    = match first with
      | Some c =>
          if bool_decide (c = []) then Ok no_solution
          else Ok (schedule_obj (by_day c num_days max_per_day))
      | None => Ok no_solution
      end.
Proof.
  intros num_days max_per_day vars first.
  assert (first_solution (make_csp activities num_days config) = first) as Hfirst.
  { unfold first_solution, first. cbn [constraints].
    f_equal. apply candidates_ext. intros var Hvar.
    by apply dom_of_make_csp. }
  split.
  - intros fuel Hfuel. rewrite <- Hfirst. by apply make_csp_backtrack.
  - rewrite <- Hfirst. apply generate_schedule_spec.
Qed.

Lemma deterministic_first_found_witness :
  backtrack 4%nat (make_csp [lunch; museum; park] (100 - 100 + 1) (cfg 3 2)) []
  = Ok (RetAssignment,
        [("Day1_Slot1", museum); ("Day1_Slot2", lunch); ("Day1_Slot3", park)]).
Proof.
  rewrite (proj1 (deterministic_first_found [lunch; museum; park] 100 100 (cfg 3 2))
             4%nat).
  - vm_compute. reflexivity.
  - vm_compute. lia.
Defined.

(** C7, as the code behaves.  The list under a day label holds the
    activities that the search assigned to slots 1, 2, ... of that day, in
    this order; the assignment is iterated in insertion order, which is the
    enumeration order of the variables. *)
Theorem day_lists_in_slot_order (activities : list Activity)
    (start_date end_date : Z) (config : Config) (out : Output)
    (day : string) (l : list Activity) :
  generate_schedule activities start_date end_date config = Ok out →
  (day, OList l) ∈ out →
  ∃ c d,
    backtrack
      (S (length (variables (make_csp activities (end_date - start_date + 1) config))))
      (make_csp activities (end_date - start_date + 1) config) []
    = Ok (RetAssignment, c)
    ∧ PyDict.keys c
      = make_variables (end_date - start_date + 1) (default 3 (config !! "max_per_day"))
    ∧ day = day_label d
    ∧ l = (λ slot, assigned c (slot_label d slot))
            <$> py_range (default 3 (config !! "max_per_day")).
Proof.
  intros Hout Hday.
  assert (out ≠ no_solution) as Hne.
  { intros ->. by apply list_elem_of_singleton in Hday. }
  destruct (generate_schedule_produces _ _ _ _ _ Hout Hne) as (c & Hsol & _ & ->).
  apply elem_of_schedule_obj in Hday as (l' & [= <-] & Hday).
  apply elem_of_by_day in Hday as (d & _ & -> & ->).
  exists c, d.
  split_and!; [|by apply (solution_keys activities start_date end_date)|done..].
  rewrite make_csp_backtrack by lia. by rewrite Hsol.
Qed.

Lemma day_lists_in_slot_order_witness :
  ∃ c d,
    backtrack
      (S (length (variables (make_csp [lunch; museum; park] (100 - 100 + 1) (cfg 3 2)))))
      (make_csp [lunch; museum; park] (100 - 100 + 1) (cfg 3 2)) []
    = Ok (RetAssignment, c)
    ∧ PyDict.keys c = make_variables (100 - 100 + 1) (default 3 (cfg 3 2 !! "max_per_day"))
    ∧ "Day1" = day_label d
    ∧ [museum; lunch; park]
      = (λ slot, assigned c (slot_label d slot))
          <$> py_range (default 3 (cfg 3 2 !! "max_per_day")).
Proof.
  apply (day_lists_in_slot_order [lunch; museum; park] 100 100 (cfg 3 2)
           [("Day1", OList [museum; lunch; park])]).
  - vm_compute. reflexivity.
  - apply list_elem_of_here.
Defined.

(** C7 as stated fails: the formatting loop relies on the order in which
    the assignment is iterated.  Fed the items of the assignment found for
    the first scenario in another order, it lists the day's activities out
    of slot order. *)
Lemma formatting_follows_iteration_order :
  backtrack 4%nat (make_csp [museum; lunch; park] (100 - 100 + 1) (cfg 3 2)) []
  = Ok (RetAssignment, sample_assignment)
  ∧ reverse sample_assignment ≡ₚ sample_assignment
  ∧ format_days sample_assignment [] = Ok (by_day sample_assignment 1 3)
  ∧ format_days (reverse sample_assignment) [] = Ok [("Day1", [park; lunch; museum])]
  ∧ format_days (reverse sample_assignment) [] ≠ Ok (by_day sample_assignment 1 3).
Proof.
  split_and!.
  - vm_compute. reflexivity.
  - apply reverse_Permutation.
  - vm_compute. reflexivity.
  - vm_compute. reflexivity.
  - vm_compute. discriminate.
Qed.

(** C8.  When the search returns [None], the call returns the no-solution
    message as an ordinary value: it is not an error, it is not the empty
    mapping, no candidate of the search space satisfies the constraints,
    and every other output of the engine is a non-empty mapping without the
    key "message" whose values are all activity lists. *)
Theorem no_solution_is_data (activities : list Activity)
    (start_date end_date : Z) (config : Config) (a : Assignment) :
  backtrack
    (S (length (variables (make_csp activities (end_date - start_date + 1) config))))
    (make_csp activities (end_date - start_date + 1) config) []
  = Ok (RetNone, a) →
  generate_schedule activities start_date end_date config = Ok no_solution
  ∧ ¬ is_error (generate_schedule activities start_date end_date config)
  ∧ no_solution ≠ []
  ∧ (∀ c, c ∈ candidates (λ _, activities)
                (variables (make_csp activities (end_date - start_date + 1) config)) →
          extends_ok [no_duplicate; food_after_slot config] [] c = false)
  ∧ (∀ activities' start_date' end_date' config' out',
       generate_schedule activities' start_date' end_date' config' = Ok out' →
       out' = no_solution
       ∨ (out' ≠ no_solution ∧ out' ≠ []
          ∧ ("message" ∉ PyDict.keys out')
          ∧ (∀ day o, (day, o) ∈ out' → ∃ l, o = OList l))).
Proof.
  intros Hnone.
  assert (generate_schedule activities start_date end_date config = Ok no_solution)
    as Hout.
  { unfold generate_schedule. cbv zeta. by rewrite Hnone. }
  split_and!; [done|rewrite Hout; cbn; tauto|done| |].
  - rewrite make_csp_backtrack in Hnone by lia.
    destruct (first_solution _) as [c'|] eqn:Hsol; [done|].
    intros c Hc. apply (first_solution_None _ c Hsol).
    rewrite (candidates_ext _ (λ _, activities)); [done|].
    apply dom_of_make_csp.
  - intros activities' start_date' end_date' config' out' Hout'.
    destruct (decide (out' = no_solution)) as [|Hne]; [by left|right].
    destruct (generate_schedule_produces _ _ _ _ _ Hout' Hne)
      as (c & Hsol & Hc & ->).
    destruct (solution_nonempty _ _ _ _ c Hsol Hc) as [Hdays _].
    split_and!; [done| | |].
    + unfold schedule_obj, by_day, py_range. intros Hnil.
      apply (f_equal length) in Hnil.
      rewrite !length_fmap, length_seqZ in Hnil. cbn in Hnil. lia.
    + unfold PyDict.keys, schedule_obj, by_day. rewrite <- !list_fmap_compose.
      intros (d & Hd & _)%list_elem_of_fmap. cbn in Hd.
      by apply message_not_day in Hd.
    + intros day o (l & -> & _)%elem_of_schedule_obj. by exists l.
Qed.

Lemma no_solution_is_data_witness :
  generate_schedule [museum; lunch; park] 100 101 (cfg 3 1) = Ok no_solution.
Proof.
  apply (no_solution_is_data [museum; lunch; park] 100 101 (cfg 3 1) []).
  vm_compute. reflexivity.
Defined.

(** C9.  For a CSP with distinct variables, each with the activities as its
    domain, and constraints that return a truth value on these variables,
    the search started from the empty assignment returns with any fuel
    above the number of variables: either a complete assignment, which is
    a solution from the search space, or [None] with the assignment
    restored, and then no candidate of the search space is a solution.  The
    search space has [|activities| ^ |variables|] candidates. *)
Theorem backtrack_terminates (csp : CSP) (activities : list Activity) (fuel : nat) :
  NoDup (variables csp) →
  (∀ var, var ∈ variables csp → domains csp !! var = Some activities) →
  Forall (λ k : Constraint, ∀ a var value,
            var ∈ variables csp → ∃ b, k a var value = Ok b)
         (constraints csp) →
  (length (variables csp) < fuel)%nat →
  length (candidates (λ _, activities) (variables csp))
  = (length activities ^ length (variables csp))%nat
  ∧ ((∃ c, backtrack fuel csp [] = Ok (RetAssignment, c)
           ∧ PyDict.keys c = variables csp
           ∧ c ∈ candidates (λ _, activities) (variables csp)
           ∧ extends_ok (constraints csp) [] c = true)
     ∨ (backtrack fuel csp [] = Ok (RetNone, [])
        ∧ ∀ c, c ∈ candidates (λ _, activities) (variables csp) →
               extends_ok (constraints csp) [] c = false)).
Proof.
  intros Hnodup Hdoms Htotal Hfuel.
  split; [by apply candidates_length|].
  assert (candidates (dom_of csp) (variables csp)
          = candidates (λ _, activities) (variables csp)) as Hspace.
  { apply candidates_ext. intros var Hvar. unfold dom_of.
    by rewrite (Hdoms var Hvar). }
  rewrite (backtrack_first_solution csp Hnodup); [| |by apply is_consistent_total|done].
  2:{ intros var Hvar. rewrite (Hdoms var Hvar). by eexists. }
  destruct (first_solution csp) as [c|] eqn:Hsol.
  - left. exists c. apply first_solution_Some in Hsol as [Hin Hok].
    split_and!; [done|by apply candidates_keys in Hin|by rewrite <- Hspace|done].
  - right. split; [done|]. intros c Hc. apply (first_solution_None _ c Hsol).
    by rewrite Hspace.
Qed.

Lemma backtrack_terminates_witness :
  length (candidates (λ _, [museum; lunch; park])
            (variables (make_csp [museum; lunch; park] 1 (cfg 3 2))))
  = (3 ^ 3)%nat
  ∧ ∃ c, backtrack 4%nat (make_csp [museum; lunch; park] 1 (cfg 3 2)) []
         = Ok (RetAssignment, c).
Proof.
  destruct (backtrack_terminates (make_csp [museum; lunch; park] 1 (cfg 3 2))
              [museum; lunch; park] 4%nat) as [Hlen [(c & Hc & _)|[Hnone _]]].
  - apply NoDup_make_variables.
  - intros var Hvar. by apply make_domains_lookup.
  - apply make_csp_constraints_total.
  - vm_compute. lia.
  - split; [exact Hlen|]. by exists c.
  - exfalso. revert Hnone. vm_compute. discriminate.
Defined.

(** C2, as the code behaves.  A non-positive [max_per_day] or
    [food_after_slot] is not rejected.  With [max_per_day <= 0] no slot
    variable is generated and the call returns the no-solution message;
    otherwise a non-positive [food_after_slot] never rejects a candidate,
    and the call returns what it returns with [food_after_slot = 1]. *)
Theorem nonpositive_options_not_rejected (activities : list Activity)
    (start_date end_date : Z) (config : Config) :
  default 3 (config !! "max_per_day") ≤ 0
  ∨ default 1 (config !! "food_after_slot") ≤ 0 →
  ¬ is_error (generate_schedule activities start_date end_date config)
  ∧ generate_schedule activities start_date end_date config
    = if decide (default 3 (config !! "max_per_day") ≤ 0)
      then Ok no_solution
      else generate_schedule activities start_date end_date
             (<["food_after_slot" := 1]> config).
Proof.
  intros Hopt. split.
  { destruct (generate_schedule_ok activities start_date end_date config)
      as [out ->]. cbn. tauto. }
  destruct (decide (default 3 (config !! "max_per_day") ≤ 0)) as [Hmax|Hmax].
  - apply generate_schedule_no_variables, make_variables_nil. by right.
  - destruct Hopt as [?|Hthr]; [done|].
    rewrite !generate_schedule_spec.
    rewrite (first_solution_threshold activities _ config
               (<["food_after_slot" := 1]> config)).
    + by rewrite lookup_insert_ne.
    + by rewrite lookup_insert_ne.
    + lia.
    + by rewrite lookup_insert_eq.
Qed.

Lemma nonpositive_options_not_rejected_witness :
  (default 3 (cfg 1 0 !! "max_per_day") ≤ 0
   ∨ default 1 (cfg 1 0 !! "food_after_slot") ≤ 0)
  ∧ ¬ is_error (generate_schedule [lunch] 100 100 (cfg 1 0)).
Proof.
  assert (default 3 (cfg 1 0 !! "max_per_day") ≤ 0
          ∨ default 1 (cfg 1 0 !! "food_after_slot") ≤ 0) as Hopt.
  { right. vm_compute. discriminate. }
  split; [exact Hopt|].
  exact (proj1 (nonpositive_options_not_rejected [lunch] 100 100 (cfg 1 0) Hopt)).
Defined.

(** C2 as stated fails: with [food_after_slot = 0] the call reports no
    input error and schedules the food activity in slot 1; with
    [max_per_day = 0] it returns the no-solution message. *)
Lemma nonpositive_threshold_accepted :
  generate_schedule [lunch] 100 100 (cfg 1 0) = Ok [("Day1", OList [lunch])]
  ∧ ¬ is_error (generate_schedule [lunch] 100 100 (cfg 1 0))
  ∧ generate_schedule [lunch] 100 100 (cfg 0 1) = Ok no_solution
  ∧ ¬ is_error (generate_schedule [lunch] 100 100 (cfg 0 1)).
Proof.
  split_and!.
  - vm_compute. reflexivity.
  - vm_compute. tauto.
  - vm_compute. reflexivity.
  - vm_compute. tauto.
Qed.

(** ** Further properties of the scheduler *)

(** X1.  A generated variable name splits back into the day label and the
    slot part, and the slot part parses back to the slot number, for every
    pair of integers. *)
Theorem slot_label_round_trip (d slot : Z) :
  PyStr.split "_" (slot_label d slot) !! 0%nat = Some (day_label d)
  ∧ (∃ part, PyStr.split "_" (slot_label d slot) !! 1%nat = Some part
             ∧ PyStr.to_int (PyStr.replace "Slot" "" part) = Ok (slot + 1))
  ∧ PyStr.split "_" (slot_label d slot) !! 2%nat = None.
Proof.
  rewrite split_slot_label. split_and!; [done| |done].
  eexists. split; [done|].
  rewrite replace_Slot by (by apply of_int_no_char).
  apply to_int_of_int.
Qed.

Lemma lookup_bind_const {A B} (f : A → list B) (l : list A) (k i j : nat)
    (x : A) (y : B) :
  (∀ z, z ∈ l → length (f z) = k) →
  l !! i = Some x → f x !! j = Some y →
  (l ≫= f) !! (i * k + j)%nat = Some y.
Proof.
  revert i. induction l as [|z l IH]; intros i Hlen Hi Hj; [done|].
  rewrite bind_cons. destruct i as [|i]; cbn in Hi.
  - injection Hi as ->. cbn. rewrite lookup_app_l; [done|].
    by apply lookup_lt_Some in Hj.
  - rewrite lookup_app_r by (rewrite Hlen by (by left); lia).
    rewrite Hlen by (by left).
    replace (S i * k + j - k)%nat with (i * k + j)%nat by lia.
    apply IH; [|done..]. intros z' Hz'. apply Hlen. by right.
Qed.

(** X2.  The variables are pairwise distinct, there are
    [num_days * max_per_day] of them (none when either is not positive),
    and slot [s] of day [d] is at index [d * max_per_day + s]: the order is
    day-major, slot-minor. *)
Theorem variables_enumeration (num_days max_per_day d slot : Z) :
  0 ≤ d < num_days → 0 ≤ slot < max_per_day →
  NoDup (make_variables num_days max_per_day)
  ∧ length (make_variables num_days max_per_day)
    = (Z.to_nat num_days * Z.to_nat max_per_day)%nat
  ∧ make_variables num_days max_per_day !! Z.to_nat (d * max_per_day + slot)
    = Some (slot_label d slot).
Proof.
  intros Hd Hslot. split_and!.
  - apply NoDup_make_variables.
  - apply length_make_variables.
  - replace (Z.to_nat (d * max_per_day + slot))
      with (Z.to_nat d * Z.to_nat max_per_day + Z.to_nat slot)%nat by nia.
    unfold make_variables.
    apply (lookup_bind_const _ _ _ _ _ d).
    + intros z _. rewrite bind_singleton_fmap, length_fmap.
      unfold py_range. by rewrite length_seqZ.
    + unfold py_range. apply lookup_seqZ. lia.
    + rewrite bind_singleton_fmap, list_lookup_fmap. unfold py_range.
      rewrite (proj2 (lookup_seqZ 0 max_per_day (Z.to_nat slot) slot)) by lia.
      done.
Qed.

Lemma variables_enumeration_witness :
  make_variables 2 3 !! Z.to_nat (1 * 3 + 2) = Some (slot_label 1 2).
Proof.
  apply (variables_enumeration 2 3 1 2); lia.
Defined.

(** X3.  From any state reached by the search (the first variables
    assigned, in order), [backtrack] returns without error, and either
    reports failure with the assignment exactly as it was before the call,
    or returns it extended by values for all remaining variables. *)
Theorem backtrack_restores (csp : CSP) (fuel : nat) (pre rest : list string)
    (a : Assignment) :
  NoDup (variables csp) →
  (∀ var, var ∈ variables csp → is_Some (domains csp !! var)) →
  Forall (λ k : Constraint, ∀ a var value,
            var ∈ variables csp → ∃ b, k a var value = Ok b)
         (constraints csp) →
  variables csp = pre ++ rest → PyDict.keys a = pre →
  (length rest < fuel)%nat →
  backtrack fuel csp a = Ok (RetNone, a)
  ∨ ∃ c, backtrack fuel csp a = Ok (RetAssignment, a ++ c)
         ∧ PyDict.keys c = rest
         ∧ extends_ok (constraints csp) a c = true.
Proof.
  intros Hnodup Hdoms Htotal Hvars Hkeys Hfuel.
  rewrite (backtrack_search csp Hnodup Hdoms) with (pre := pre) (rest := rest);
    [|by apply is_consistent_total|done..].
  destruct (List.find _ _) as [c|] eqn:Hfind; [right|by left].
  apply List.find_some in Hfind as [Hin%list_elem_of_In Hok].
  exists c. split_and!; [done| |done]. by apply candidates_keys in Hin.
Qed.

Lemma backtrack_restores_witness :
  backtrack 3%nat (make_csp [museum; lunch] 1 (cfg 3 1)) [(slot_label 0 0, museum)]
  = Ok (RetNone, [(slot_label 0 0, museum)]).
Proof.
  destruct (backtrack_restores (make_csp [museum; lunch] 1 (cfg 3 1)) 3%nat
              [slot_label 0 0] [slot_label 0 1; slot_label 0 2]
              [(slot_label 0 0, museum)]) as [Hnone|(c & Hc & _)].
  - apply NoDup_make_variables.
  - apply make_csp_doms.
  - apply make_csp_constraints_total.
  - vm_compute. reflexivity.
  - reflexivity.
  - cbn. lia.
  - exact Hnone.
  - exfalso. revert Hc. vm_compute. discriminate.
Defined.

Lemma elem_of_scheduled (activities : list Activity) (start_date end_date : Z)
    (config : Config) (out : Output) (x : Activity) :
  generate_schedule activities start_date end_date config = Ok out →
  x ∈ scheduled out →
  ∃ c d slot,
    first_solution (make_csp activities (end_date - start_date + 1) config) = Some c
    ∧ 0 ≤ d < end_date - start_date + 1
    ∧ 0 ≤ slot < default 3 (config !! "max_per_day")
    ∧ (slot_label d slot, x) ∈ c.
Proof.
  intros Hout Hx.
  assert (out ≠ no_solution) as Hne.
  { intros ->. by apply elem_of_nil in Hx. }
  destruct (generate_schedule_produces _ _ _ _ _ Hout Hne) as (c & Hsol & _ & ->).
  rewrite scheduled_schedule_obj, by_day_concat in Hx.
  apply list_elem_of_fmap in Hx as (var & -> & Hvar).
  pose proof Hvar as (d & slot & -> & Hd & Hslot)%elem_of_make_variables.
  exists c, d, slot. repeat split; try done; try lia.
  apply elem_of_keys_assigned.
  by rewrite (solution_keys _ _ _ _ _ Hsol).
Qed.

(** X4.  With an empty list of activities the call returns the no-solution
    message, whatever the dates and the configuration. *)
Theorem empty_activities_no_solution (start_date end_date : Z) (config : Config) :
  generate_schedule [] start_date end_date config = Ok no_solution.
Proof.
  destruct (generate_schedule_ok [] start_date end_date config) as [out Hout].
  rewrite Hout. f_equal.
  destruct (decide (out = no_solution)) as [|Hne]; [done|exfalso].
  destruct (generate_schedule_produces _ _ _ _ _ Hout Hne) as (c & Hsol & Hc & _).
  apply first_solution_Some in Hsol as [Hin _].
  destruct c as [|[var value] c]; [done|].
  pose proof (candidates_keys _ _ _ Hin) as Hkeys.
  apply (candidates_values _ _ _ var value) in Hin; [|by left].
  rewrite dom_of_make_csp in Hin; [by apply elem_of_nil in Hin|].
  rewrite <- Hkeys. unfold PyDict.keys. rewrite fmap_cons. by left.
Qed.

(** X5.  When there are fewer activities than slot variables, the call
    returns the no-solution message: the no-duplicate constraint leaves no
    way to fill every slot. *)
Theorem too_few_activities_no_solution (activities : list Activity)
    (start_date end_date : Z) (config : Config) :
  (length activities
   < Z.to_nat (end_date - start_date + 1)
     * Z.to_nat (default 3%Z (config !! "max_per_day")))%nat →
  generate_schedule activities start_date end_date config = Ok no_solution.
Proof.
  intros Hfew.
  destruct (generate_schedule_ok activities start_date end_date config)
    as [out Hout].
  rewrite Hout. f_equal.
  destruct (decide (out = no_solution)) as [|Hne]; [done|exfalso].
  destruct (generate_schedule_produces _ _ _ _ _ Hout Hne) as (c & Hsol & _ & _).
  pose proof (solution_keys _ _ _ _ _ Hsol) as Hkeys.
  pose proof (solution_labels _ _ _ _ _ Hsol) as Hlabels.
  apply first_solution_Some in Hsol as [Hin Hok].
  assert (PyDict.values c ⊆+ activities) as Hsub.
  { apply NoDup_submseteq.
    - by apply (solution_NoDup activities (end_date - start_date + 1) config).
    - intros x ([var value] & -> & Hx)%list_elem_of_fmap. cbn.
      pose proof (candidates_values _ _ _ var value Hin Hx) as Hdom.
      rewrite dom_of_make_csp in Hdom; [done|].
      cbn [make_csp variables]. rewrite <- Hkeys.
      by apply (list_elem_of_fmap_2 fst) in Hx. }
  apply submseteq_length in Hsub.
  assert (length (PyDict.values c) = length (PyDict.keys c)) as Hlen.
  { unfold PyDict.values, PyDict.keys. by rewrite !length_fmap. }
  rewrite Hlen, Hkeys, length_make_variables in Hsub. lia.
Qed.

Lemma too_few_activities_no_solution_witness :
  generate_schedule [museum; lunch; park] 100 101 (cfg 3 1) = Ok no_solution.
Proof.
  apply (too_few_activities_no_solution [museum; lunch; park] 100 101 (cfg 3 1)).
  vm_compute. lia.
Defined.

(** X6.  Every activity of a returned schedule is one of the activities
    passed in. *)
Theorem scheduled_from_input (activities : list Activity)
    (start_date end_date : Z) (config : Config) (out : Output) (x : Activity) :
  generate_schedule activities start_date end_date config = Ok out →
  x ∈ scheduled out →
  x ∈ activities.
Proof.
  intros Hout Hx.
  destruct (elem_of_scheduled _ _ _ _ _ _ Hout Hx)
    as (c & d & slot & Hsol & Hd & Hslot & Hin).
  apply first_solution_Some in Hsol as [Hc _].
  pose proof (candidates_values _ _ _ _ _ Hc Hin) as Hdom.
  rewrite dom_of_make_csp in Hdom; [done|].
  apply elem_of_make_variables. by exists d, slot.
Qed.

Lemma scheduled_from_input_witness : lunch ∈ [lunch; museum; park; zoo].
Proof.
  apply (scheduled_from_input [lunch; museum; park; zoo] 100 101 (cfg 2 2)
           [("Day1", OList [museum; lunch]); ("Day2", OList [park; zoo])]).
  - vm_compute. reflexivity.
  - cbn. apply elem_of_cons. right. apply elem_of_cons. by left.
Defined.

(** X7.  When [food_after_slot] exceeds [max_per_day], no returned schedule
    contains a food activity: food is left out, or there is no schedule. *)
Theorem food_left_out (activities : list Activity)
    (start_date end_date : Z) (config : Config) (out : Output) (x : Activity) :
  default 3 (config !! "max_per_day") < default 1 (config !! "food_after_slot") →
  generate_schedule activities start_date end_date config = Ok out →
  x ∈ scheduled out →
  is_food x = false.
Proof.
  intros Hthr Hout Hx.
  destruct (elem_of_scheduled _ _ _ _ _ _ Hout Hx)
    as (c & d & slot & Hsol & Hd & Hslot & Hin).
  apply first_solution_Some in Hsol as [_ Hok].
  destruct (is_food x) eqn:Hfood; [exfalso|done].
  pose proof (solution_food _ _ _ _ _ _ _ Hok Hin Hfood). lia.
Qed.

Lemma food_left_out_witness : is_food museum = false.
Proof.
  apply (food_left_out [lunch; museum; park; zoo] 100 100 (cfg 3 4)
           [("Day1", OList [museum; park; zoo])]).
  - vm_compute. reflexivity.
  - vm_compute. reflexivity.
  - cbn. by left.
Defined.

(** X8.  [is_consistent] stops at the first constraint that returns
    [False]: the constraints after it are not called, so whatever they
    would return or raise does not matter. *)
Theorem is_consistent_short_circuit (cs1 cs2 : list Constraint) (k : Constraint)
    (a : Assignment) (var : string) (value : Activity) :
  Forall (λ k' : Constraint, k' a var value = Ok true) cs1 →
  k a var value = Ok false →
  is_consistent (cs1 ++ k :: cs2) a var value = Ok false.
Proof.
  intros Hcs1 Hk. induction Hcs1 as [|k' cs1 Hk' _ IH]; cbn [app is_consistent].
  - by rewrite Hk.
  - by rewrite Hk'.
Qed.

Lemma is_consistent_short_circuit_witness :
  is_consistent ([no_duplicate] ++ food_after_slot (cfg 3 2) :: [λ _ _ _, Raise KeyError])
    [] (slot_label 0 0) lunch
  = Ok false.
Proof.
  apply (is_consistent_short_circuit [no_duplicate] [λ _ _ _, Raise KeyError]).
  - repeat constructor.
  - vm_compute. reflexivity.
Defined.

(** X9.  [is_consistent] returns [True] exactly when every constraint
    returns [True]. *)
Theorem is_consistent_all (cs : list Constraint) (a : Assignment)
    (var : string) (value : Activity) :
  is_consistent cs a var value = Ok true
  ↔ Forall (λ k : Constraint, k a var value = Ok true) cs.
Proof.
  induction cs as [|k cs IH]; cbn [is_consistent].
  - split; [constructor|done].
  - rewrite Forall_cons, <- IH.
    destruct (k a var value) as [[]| |]; cbn;
      (split; [by try split|by intros [? ?]]).
Qed.

(** X10.  Once every variable name is a key of the assignment while the
    two lengths differ, as happens when a name occurs twice among the
    variables, [backtrack] raises [IndexError]. *)
Theorem backtrack_repeated_variable (csp : CSP) (a : Assignment) (fuel : nat) :
  (∀ var, var ∈ variables csp → var ∈ PyDict.keys a) →
  length a ≠ length (variables csp) →
  backtrack (S fuel) csp a = Raise IndexError.
Proof.
  intros Hall Hlen. cbn [backtrack].
  rewrite bool_decide_eq_false_2 by done.
  rewrite filter_none; [done|].
  apply Forall_forall. intros var Hvar Hmem.
  apply mem_false in Hmem. by apply Hmem, Hall.
Qed.

Lemma backtrack_repeated_variable_witness :
  backtrack 2%nat (mkCSP ["x"; "x"] {[ "x" := [museum] ]} [no_duplicate]) []
  = Raise IndexError.
Proof.
  cbn [backtrack variables domains constraints].
  rewrite bool_decide_eq_false_2 by (cbn; lia).
  replace (filter _ ["x"; "x"]) with ["x"; "x"] by (vm_compute; reflexivity).
  replace (({[ "x" := [museum] ]} : gmap string (list Activity)) !! "x")
    with (Some [museum]) by (vm_compute; reflexivity).
  cbn [try_values is_consistent no_duplicate bind_res].
  replace (bool_decide (museum ∉ PyDict.values ([] : Assignment))) with true
    by (vm_compute; reflexivity).
  cbn [negb bind_res].
  rewrite (backtrack_repeated_variable
             (mkCSP ["x"; "x"] {[ "x" := [museum] ]} [no_duplicate])
             (PyDict.set "x" museum []) 0).
  - reflexivity.
  - intros var Hvar. cbn in Hvar. vm_compute.
    apply elem_of_cons in Hvar as [->|Hvar%elem_of_cons]; [by left|].
    destruct Hvar as [->|Hvar]; [by left|by apply elem_of_nil in Hvar].
  - vm_compute. lia.
Defined.

(** X11.  On a variable name without an underscore the food constraint
    raises [IndexError] for a food activity, and returns [True] for any
    other activity without looking at the name. *)
Theorem food_after_slot_no_underscore (config : Config) (a : Assignment)
    (var : string) (value : Activity) :
  str_forall (λ c, negb (Ascii.eqb c "_")) var = true →
  food_after_slot config a var value
  = if is_food value then Raise IndexError else Ok true.
Proof.
  intros Hvar. unfold food_after_slot.
  destruct (is_food value); [|done]. by rewrite split_no_sep.
Qed.

Lemma food_after_slot_no_underscore_witness :
  food_after_slot (cfg 3 2) [] "Day1Slot1" lunch = Raise IndexError.
Proof.
  rewrite (food_after_slot_no_underscore (cfg 3 2) [] "Day1Slot1" lunch).
  - vm_compute. reflexivity.
  - vm_compute. reflexivity.
Defined.

Lemma extends_ok_same_options (activities : list Activity) (num_days : Z)
    (config config' : Config) (c : Assignment) :
  default 1 (config' !! "food_after_slot") = default 1 (config !! "food_after_slot") →
  Forall is_label (PyDict.keys c) →
  ∀ a, extends_ok (constraints (make_csp activities num_days config')) a c
       = extends_ok (constraints (make_csp activities num_days config)) a c.
Proof.
  intros Hthr. induction c as [|[var value] c IH]; [done|].
  unfold PyDict.keys in *. rewrite fmap_cons.
  intros [(d & slot & Hvar) Hc]%Forall_cons a. cbn in Hvar. subst var.
  cbn [extends_ok]. rewrite IH by done. f_equal.
  unfold check. by rewrite !is_consistent_label, Hthr.
Qed.

(** X12.  The configuration is read through the two options only, each
    with its default (3 slots a day, threshold 1): configurations that
    agree on them, whatever other keys they hold, give the same result. *)
Theorem options_read (activities : list Activity) (start_date end_date : Z)
    (config config' : Config) :
  default 3 (config' !! "max_per_day") = default 3 (config !! "max_per_day") →
  default 1 (config' !! "food_after_slot") = default 1 (config !! "food_after_slot") →
  generate_schedule activities start_date end_date config'
  = generate_schedule activities start_date end_date config.
Proof.
  intros Hmax Hthr. rewrite !generate_schedule_spec, Hmax.
  assert (first_solution (make_csp activities (end_date - start_date + 1) config')
          = first_solution (make_csp activities (end_date - start_date + 1) config))
    as ->; [|done].
  unfold first_solution.
  rewrite (candidates_ext _ (λ _, activities)) by apply dom_of_make_csp.
  rewrite (candidates_ext (dom_of (make_csp activities _ config))
             (λ _, activities)) by apply dom_of_make_csp.
  cbn [make_csp variables]. rewrite Hmax.
  apply find_ext_in. intros c Hc%candidates_keys.
  apply extends_ok_same_options; [done|]. rewrite Hc. apply Forall_forall.
  intros var (d & slot & -> & _)%elem_of_make_variables. by exists d, slot.
Qed.

Lemma options_read_witness :
  generate_schedule [museum; lunch; park] 100 100 {[ "theme" := 7 ]}
  = generate_schedule [museum; lunch; park] 100 100 (cfg 3 1).
Proof.
  apply (options_read [museum; lunch; park] 100 100 (cfg 3 1) {[ "theme" := 7 ]}).
  - vm_compute. reflexivity.
  - vm_compute. reflexivity.
Defined.

Lemma find_values_split (cs : list Constraint) (a : Assignment) (var : string)
    (dom : list Activity) (cands : list Assignment) (c : Assignment) :
  List.find (extends_ok cs a) (value ← dom; cons (var, value) <$> cands) = Some c →
  ∃ x c2 l1 l2,
    c = (var, x) :: c2 ∧ dom = l1 ++ x :: l2
    ∧ List.find (extends_ok cs (a ++ [(var, x)])) cands = Some c2
    ∧ ∀ y c', y ∈ l1 → c' ∈ cands → extends_ok cs a ((var, y) :: c') = false.
Proof.
  induction dom as [|y dom IH]; [done|].
  rewrite bind_cons, find_app, find_extend.
  destruct (check cs a var y) eqn:Hy.
  - destruct (List.find _ cands) as [c2|] eqn:Hfind; cbn.
    + intros [= <-]. exists y, c2, [], dom. split_and!; [done..|].
      by intros y' c' ?%elem_of_nil.
    + intros (x & c2 & l1 & l2 & -> & -> & Hc2 & Hleast)%IH.
      exists x, c2, (y :: l1), l2. split_and!; [done..|].
      intros y' c' [->|Hy']%elem_of_cons Hc'; [|by apply Hleast].
      cbn [extends_ok]. rewrite Hy. cbn.
      apply (List.find_none _ _ Hfind). by apply list_elem_of_In.
  - intros (x & c2 & l1 & l2 & -> & -> & Hc2 & Hleast)%IH.
    exists x, c2, (y :: l1), l2. split_and!; [done..|].
    intros y' c' [->|Hy']%elem_of_cons Hc'; [|by apply Hleast].
    cbn [extends_ok]. by rewrite Hy.
Qed.

Lemma first_found_prefix (cs : list Constraint) (doms : string → list Activity)
    (c1 : Assignment) :
  ∀ (a : Assignment) (vars : list string) (var : string) (x : Activity)
    (c2 : Assignment),
    List.find (extends_ok cs a) (candidates doms vars) = Some (c1 ++ (var, x) :: c2) →
    ∃ l1 l2,
      doms var = l1 ++ x :: l2
      ∧ ∀ y c', y ∈ l1 → c' ∈ candidates doms (PyDict.keys c2) →
                extends_ok cs (a ++ c1) ((var, y) :: c') = false.
Proof.
  induction c1 as [|[var1 x1] c1 IH]; intros a vars var x c2 Hfind.
  - destruct vars as [|var' vars].
    { cbn in Hfind. by injection Hfind. }
    cbn [candidates] in Hfind.
    apply find_values_split in Hfind
      as (x' & c2' & l1 & l2 & [= <- <- <-] & Hdom & Hc2 & Hleast).
    exists l1, l2. split; [done|]. rewrite app_nil_r.
    apply List.find_some in Hc2 as [Hin%list_elem_of_In _].
    by rewrite (candidates_keys _ _ _ Hin).
  - destruct vars as [|var' vars].
    { cbn in Hfind. by injection Hfind. }
    cbn [candidates] in Hfind.
    apply find_values_split in Hfind
      as (x' & c2' & l1 & l2 & [= <- <- <-] & _ & Hc2 & _).
    apply IH in Hc2 as (l1' & l2' & Hdom & Hleast).
    exists l1', l2'. split; [done|].
    intros y c' Hy Hc'. specialize (Hleast y c' Hy Hc').
    by rewrite <- app_assoc in Hleast.
Qed.

(** X13.  The assignment returned by the search is the least one in value
    order: keeping its entries before some variable, no activity listed
    before the one chosen for that variable can be completed to a
    solution. *)
Theorem first_found_is_least (activities : list Activity) (num_days : Z)
    (config : Config) (c1 c2 : Assignment) (var : string) (x : Activity) :
  backtrack (S (length (variables (make_csp activities num_days config))))
    (make_csp activities num_days config) []
  = Ok (RetAssignment, c1 ++ (var, x) :: c2) →
  ∃ l1 l2,
    activities = l1 ++ x :: l2
    ∧ ∀ y c', y ∈ l1 →
              c' ∈ candidates (λ _, activities) (PyDict.keys c2) →
              extends_ok [no_duplicate; food_after_slot config] []
                (c1 ++ (var, y) :: c') = false.
Proof.
  rewrite make_csp_backtrack by lia.
  destruct (first_solution _) as [c|] eqn:Hsol; [|done].
  cbn. intros [= ->].
  pose proof (first_solution_Some _ _ Hsol) as [Hin%candidates_keys _].
  unfold first_solution in Hsol.
  apply first_found_prefix in Hsol as (l1 & l2 & Hdom & Hleast).
  assert (∀ v, v ∈ PyDict.keys ((var, x) :: c2) →
               v ∈ variables (make_csp activities num_days config)) as Hvars.
  { intros v Hv. rewrite <- Hin, keys_app. apply elem_of_app. by right. }
  rewrite dom_of_make_csp in Hdom by (apply Hvars; by left).
  exists l1, l2. split; [done|]. intros y c' Hy Hc'.
  rewrite extends_ok_app. apply andb_false_iff. right.
  apply (Hleast y c' Hy).
  rewrite (candidates_ext _ (λ _, activities)); [done|].
  intros v Hv. apply dom_of_make_csp, Hvars. by right.
Qed.

Lemma first_found_is_least_witness :
  ∃ l1 l2,
    [lunch; museum; park] = l1 ++ museum :: l2
    ∧ ∀ y c', y ∈ l1 →
        c' ∈ candidates (λ _, [lunch; museum; park])
               (PyDict.keys [(slot_label 0 1, lunch); (slot_label 0 2, park)]) →
        extends_ok [no_duplicate; food_after_slot (cfg 3 2)] []
          ([] ++ (slot_label 0 0, y) :: c') = false.
Proof.
  apply (first_found_is_least [lunch; museum; park] 1 (cfg 3 2) []
           [(slot_label 0 1, lunch); (slot_label 0 2, park)]
           (slot_label 0 0) museum).
  vm_compute. reflexivity.
Defined.

Lemma find_values_first (cs : list Constraint) (a : Assignment) (var : string)
    (cands : list Assignment) (x : Activity) (l1 l2 : list Activity)
    (c2 : Assignment) :
  (∀ y, y ∈ l1 → check cs a var y = false) →
  check cs a var x = true →
  List.find (extends_ok cs (a ++ [(var, x)])) cands = Some c2 →
  List.find (extends_ok cs a)
    (value ← l1 ++ x :: l2; cons (var, value) <$> cands)
  = Some ((var, x) :: c2).
Proof.
  intros Hl1 Hx Hc2. induction l1 as [|y l1 IH]; cbn [app].
  - by rewrite bind_cons, find_app, find_extend, Hx, Hc2.
  - rewrite bind_cons, find_app, find_extend, Hl1 by by left.
    apply IH. intros y' Hy'. apply Hl1. by right.
Qed.

Section greedy.
Context (activities : list Activity) (num_days : Z) (config : Config).
Hypothesis Hdistinct : NoDup activities.
Hypothesis Hfood : ∀ x, x ∈ activities → is_food x = true →
  default 1 (config !! "food_after_slot") ≤ 1.

Lemma check_label (a : Assignment) (d slot : Z) (x : Activity) :
  0 ≤ slot → x ∈ activities →
  check (constraints (make_csp activities num_days config)) a (slot_label d slot) x
  = bool_decide (x ∉ PyDict.values a).
Proof.
  intros Hslot Hx. unfold check. rewrite is_consistent_label.
  destruct (is_food x) eqn:Hfx.
  - pose proof (Hfood x Hx Hfx).
    rewrite (proj2 (Z.geb_le _ _)) by lia.
    by destruct (bool_decide _).
  - by destruct (bool_decide _).
Qed.

Lemma greedy_search (rest : list string) :
  Forall (λ var, ∃ d slot, var = slot_label d slot ∧ 0 ≤ slot) rest →
  ∀ (a : Assignment) (j : nat),
    PyDict.values a = take j activities →
    (j + length rest ≤ length activities)%nat →
    List.find (extends_ok (constraints (make_csp activities num_days config)) a)
      (candidates (λ _, activities) rest)
    = Some (zip rest (take (length rest) (drop j activities))).
Proof.
  induction 1 as [|var rest (d & slot & -> & Hslot) _ IH]; intros a j Ha Hlen.
  - done.
  - cbn [length] in Hlen.
    destruct (lookup_lt_is_Some_2 activities j) as [x Hx]; [lia|].
    cbn [candidates].
    pose proof (find_values_first
                  (constraints (make_csp activities num_days config)) a
                  (slot_label d slot) (candidates (λ _, activities) rest) x
                  (take j activities) (drop (S j) activities)
                  (zip rest (take (length rest) (drop (S j) activities))))
      as Hfind.
    rewrite (take_drop_middle activities j x Hx) in Hfind.
    rewrite Hfind.
    + rewrite (drop_S _ _ _ Hx). done.
    + intros y Hy. rewrite check_label; [|done|].
      * apply bool_decide_eq_false. rewrite Ha. auto.
      * by apply (subseteq_take j activities).
    + rewrite check_label; [|done|by apply list_elem_of_lookup_2 in Hx].
      apply bool_decide_eq_true. rewrite Ha.
      pose proof Hdistinct as Hnd.
      rewrite <- (take_drop_middle activities j x Hx) in Hnd.
      apply NoDup_app in Hnd as (_ & Hnd & _). intros Hin.
      apply (Hnd x Hin). by left.
    + apply IH; [|lia]. rewrite values_app, Ha. cbn.
      by rewrite (take_S_r _ _ _ Hx).
Qed.

End greedy.

(** X14.  When the activities are pairwise distinct, there are at least as
    many as slots, and food is absent or unrestricted (threshold at most 1),
    the call returns a schedule made of the first
    [num_days * max_per_day] activities in the order given. *)
Theorem plain_input_schedule (activities : list Activity)
    (start_date end_date : Z) (config : Config) :
  NoDup activities →
  (∀ x, x ∈ activities → is_food x = true →
        default 1 (config !! "food_after_slot") ≤ 1) →
  (0 < Z.to_nat (end_date - start_date + 1)
       * Z.to_nat (default 3%Z (config !! "max_per_day"))
     ≤ length activities)%nat →
  ∃ out,
    generate_schedule activities start_date end_date config = Ok out
    ∧ out ≠ no_solution
    ∧ scheduled out
      = take (Z.to_nat (end_date - start_date + 1)
              * Z.to_nat (default 3%Z (config !! "max_per_day"))) activities.
Proof.
  intros Hdistinct Hfood Hslots.
  set (vars := make_variables (end_date - start_date + 1)
                 (default 3 (config !! "max_per_day"))).
  assert (length vars = (Z.to_nat (end_date - start_date + 1)
            * Z.to_nat (default 3%Z (config !! "max_per_day")))%nat) as Hlen
    by apply length_make_variables.
  set (c := zip vars (take (length vars) activities)).
  assert (first_solution (make_csp activities (end_date - start_date + 1) config)
          = Some c) as Hsol.
  { unfold first_solution.
    rewrite (candidates_ext _ (λ _, activities)) by apply dom_of_make_csp.
    cbn [make_csp variables]. fold vars.
    rewrite (greedy_search activities (end_date - start_date + 1) config
               Hdistinct Hfood vars) with (a := []) (j := 0%nat);
      [done| |done|cbn; lia].
    apply Forall_forall.
    intros var (d & slot & -> & _ & Hslot)%elem_of_make_variables.
    exists d, slot. split; [done|lia]. }
  assert (length (take (length vars) activities) = length vars) as Htake
    by (rewrite length_take; lia).
  assert (c ≠ []) as Hc.
  { intros Hnil. apply (f_equal length) in Hnil. unfold c in Hnil.
    rewrite length_zip, Htake in Hnil. cbn in Hnil. lia. }
  rewrite generate_schedule_spec, Hsol, bool_decide_eq_false_2 by done.
  eexists. split; [done|]. split; [apply schedule_obj_not_message|].
  rewrite scheduled_schedule_obj, by_day_concat.
  rewrite <- (solution_keys _ _ _ _ _ Hsol), <- (solution_values _ _ _ _ _ Hsol).
  unfold PyDict.values, c. rewrite snd_zip by lia. by rewrite Hlen.
Qed.

Lemma plain_input_schedule_witness :
  ∃ out,
    generate_schedule [museum; lunch; park; zoo] 100 100 (cfg 3 1) = Ok out
    ∧ out ≠ no_solution
    ∧ scheduled out
      = take (Z.to_nat (100 - 100 + 1)
              * Z.to_nat (default 3%Z (cfg 3 1 !! "max_per_day")))
          [museum; lunch; park; zoo].
Proof.
  apply (plain_input_schedule [museum; lunch; park; zoo] 100 100 (cfg 3 1)).
  - apply (bool_decide_unpack _). vm_compute. exact I.
  - intros x _ _. vm_compute. discriminate.
  - vm_compute. lia.
Defined.

(** ** The formatting loop on arbitrary assignments *)

Section dict_more.
Context {K V : Type} `{EqDecision K}.
Implicit Types (d : PyDict.t K V) (k : K) (v : V).

Lemma get_None k d : PyDict.get k d = None ↔ k ∉ PyDict.keys d.
Proof.
  unfold PyDict.keys. induction d as [|[k' v'] d IH]; cbn [PyDict.get].
  - split; [intros _; apply not_elem_of_nil|done].
  - rewrite fmap_cons, not_elem_of_cons. cbn [fst].
    destruct (decide (k' = k)) as [->|Hne].
    + split; [done|]. by intros [? _].
    + rewrite IH. split; [by split|by intros [_ ?]].
Qed.

Lemma get_app k d1 d2 :
  PyDict.get k (d1 ++ d2)
  = match PyDict.get k d1 with Some v => Some v | None => PyDict.get k d2 end.
Proof.
  induction d1 as [|[k' v'] d1 IH]; [done|]. cbn [app PyDict.get].
  by destruct (decide (k' = k)).
Qed.

Lemma keys_alter (f : V → V) k d : PyDict.keys (PyDict.alter f k d) = PyDict.keys d.
Proof.
  unfold PyDict.keys. induction d as [|[k' v'] d IH]; [done|].
  cbn [PyDict.alter]. destruct (decide (k' = k)); [done|].
  by rewrite !fmap_cons, IH.
Qed.

Lemma get_alter (f : V → V) k k' d :
  PyDict.get k' (PyDict.alter f k d)
  = if decide (k = k') then f <$> PyDict.get k' d else PyDict.get k' d.
Proof.
  induction d as [|[k0 v0] d IH]; cbn [PyDict.alter PyDict.get].
  - by destruct (decide (k = k')).
  - destruct (decide (k0 = k)) as [->|Hne]; cbn [PyDict.get].
    + by destruct (decide (k = k')).
    + rewrite IH. destruct (decide (k0 = k')) as [->|?]; [|done].
      by rewrite decide_False by congruence.
Qed.

End dict_more.

Lemma split_head (sep : ascii) (s : string) :
  ∃ w ws, PyStr.split sep s = w :: ws.
Proof.
  induction s as [|c s (w & ws & IH)]; cbn [PyStr.split]; [by eexists _, _|].
  destruct (Ascii.eqb c sep); [by eexists _, _|]. rewrite IH. by eexists _, _.
Qed.

Lemma split_day_of (var : string) :
  PyStr.split "_" var !! 0%nat = Some (day_of var).
Proof.
  unfold day_of. by destruct (split_head "_" var) as (w & ws & ->).
Qed.

Lemma day_items_snoc (items : Assignment) (item : string * Activity) (day : string) :
  day_items (items ++ [item]) day
  = day_items items day ++ (if decide (day_of item.1 = day) then [item.2] else []).
Proof.
  unfold day_items. rewrite filter_app, fmap_app. f_equal.
  destruct (decide (day_of item.1 = day)) as [Hd|Hd].
  - by rewrite filter_cons_True.
  - by rewrite filter_cons_False.
Qed.

(** X15.  On any assignment, whatever the variable names, the formatting
    loop does not fail; the keys of its result are pairwise distinct, and
    under each day key it lists exactly the activities of the items of
    that day, in the order in which the items are iterated.  A day without
    item has no key. *)
Theorem format_days_groups (items : Assignment) :
  ∃ final,
    format_days items [] = Ok final
    ∧ NoDup (PyDict.keys final)
    ∧ ∀ day, PyDict.get day final
             = match day_items items day with
               | [] => None
               | l => Some l
               end.
Proof.
  induction items as [|item items (final & Hfinal & Hnd & Hget)] using rev_ind.
  - exists []. split_and!; [done|constructor|done].
  - rewrite format_days_app, Hfinal. cbn [bind_res format_days].
    unfold format_step. rewrite split_day_of.
    destruct (PyDict.mem (day_of item.1) final) eqn:Hmem; cbn [negb].
    + rewrite Hmem. cbn [bind_res]. eexists. split_and!; [done| |].
      * by rewrite keys_alter.
      * intros day. rewrite get_alter, day_items_snoc, Hget.
        destruct (decide (day_of item.1 = day)) as [<-|Hne].
        -- apply mem_true in Hmem.
           destruct (PyDict.get (day_of item.1) final) as [l|] eqn:Hl.
           ++ rewrite Hget in Hl.
              destruct (day_items items (day_of item.1)); [done|].
              by injection Hl as <-.
           ++ by apply get_None in Hl.
        -- by rewrite app_nil_r.
    + apply mem_false in Hmem. rewrite set_fresh, mem_last by done.
      cbn [bind_res]. rewrite alter_fresh by done.
      eexists. split_and!; [done| |].
      * rewrite keys_app. apply NoDup_app. split_and!; [done| |apply NoDup_singleton].
        intros k Hk ->%list_elem_of_singleton. done.
      * intros day. rewrite get_app, day_items_snoc, Hget. cbn [PyDict.get].
        destruct (decide (day_of item.1 = day)) as [<-|Hne].
        -- apply get_None in Hmem. rewrite Hget in Hmem.
           by destruct (day_items items (day_of item.1)).
        -- rewrite app_nil_r. by destruct (day_items items day).
Qed.

(** ** The itineraries router *)

Section router_facts.
Import Router.

Lemma enforce_pass (itinerary : Itinerary) (current_user : User) (db : DB) :
  attr itinerary "user_id" = VInt (user_id current_user)
  ∨ user_type current_user = "admin" →
  _enforce_owner_or_admin itinerary current_user db = (Return (), db).
Proof.
  intros Hok. unfold _enforce_owner_or_admin.
  destruct Hok as [Hown|Hadmin].
  - by rewrite (bool_decide_eq_false_2 (_ ≠ VInt _)) by auto.
  - rewrite (bool_decide_eq_false_2 (_ ≠ "admin")) by auto.
    by rewrite andb_false_r.
Qed.

Lemma enforce_fail (itinerary : Itinerary) (current_user : User) (db : DB) :
  ¬ (attr itinerary "user_id" = VInt (user_id current_user)
     ∨ user_type current_user = "admin") →
  _enforce_owner_or_admin itinerary current_user db
  = (HTTPException 403 "Not permitted for this itinerary", db).
Proof.
  intros Hno. unfold _enforce_owner_or_admin.
  rewrite !bool_decide_eq_true_2; [done| |]; intros ?; apply Hno; auto.
Qed.

(** Every handler on one itinerary starts with the same two checks. *)
Lemma guard_pass {B} (k : Itinerary → M B) (db : DB) (itinerary_id : Z)
    (current_user : User) (itinerary : Itinerary) :
  itinerary_table db !! itinerary_id = Some itinerary →
  attr itinerary "user_id" = VInt (user_id current_user)
  ∨ user_type current_user = "admin" →
  bind (_get_itinerary_or_404 itinerary_id)
    (λ itinerary, bind (_enforce_owner_or_admin itinerary current_user)
                    (λ _, k itinerary)) db
  = k itinerary db.
Proof.
  intros Hrow Hok.
  unfold bind at 1. unfold _get_itinerary_or_404, bind, query_itinerary.
  rewrite Hrow. cbn. by rewrite enforce_pass.
Qed.

Lemma guard_refuse {B} (k : Itinerary → M B) (db : DB) (itinerary_id : Z)
    (current_user : User) :
  ¬ may_access db itinerary_id current_user →
  bind (_get_itinerary_or_404 itinerary_id)
    (λ itinerary, bind (_enforce_owner_or_admin itinerary current_user)
                    (λ _, k itinerary)) db
  = (refusal db itinerary_id, db).
Proof.
  intros Hno. unfold refusal.
  unfold bind at 1. unfold _get_itinerary_or_404, bind, query_itinerary.
  destruct (itinerary_table db !! itinerary_id) as [itinerary|] eqn:Hrow; cbn;
    [|done].
  rewrite enforce_fail; [done|]. intros Hok. apply Hno. by exists itinerary.
Qed.

End router_facts.

(** X16.  A user who is neither the owner of an itinerary nor an
    administrator, or who names an itinerary that does not exist, is
    refused by every handler on one itinerary (404 when it does not exist,
    403 otherwise), and the tables are left as they were. *)
Theorem router_refuses (db : Router.DB) (itinerary_id city_id : Z)
    (payload : gmap string pyval) (current_user : Router.User) :
  ¬ Router.may_access db itinerary_id current_user →
  Router.get_itinerary itinerary_id current_user db
  = (Router.refusal db itinerary_id, db)
  ∧ Router.update_itinerary itinerary_id payload current_user db
    = (Router.refusal db itinerary_id, db)
  ∧ Router.delete_itinerary itinerary_id current_user db
    = (Router.refusal db itinerary_id, db)
  ∧ Router.add_city_to_itinerary itinerary_id city_id current_user db
    = (Router.refusal db itinerary_id, db)
  ∧ Router.remove_city_from_itinerary itinerary_id city_id current_user db
    = (Router.refusal db itinerary_id, db).
Proof.
  intros Hno. split_and!; by apply guard_refuse.
Qed.

Lemma bob_may_not_access : ¬ Router.may_access sample_db 5 bob.
Proof.
  intros (itinerary & Hrow & Hok). vm_compute in Hrow. injection Hrow as <-.
  destruct Hok as [Hown|Hadmin]; [vm_compute in Hown|vm_compute in Hadmin];
    discriminate.
Qed.

Lemma alice_may_access : Router.may_access sample_db 5 alice.
Proof. exists trip. split; [vm_compute; reflexivity|left; vm_compute; reflexivity]. Qed.

Lemma router_refuses_witness :
  Router.delete_itinerary 5 bob sample_db
  = (Router.HTTPException 403 "Not permitted for this itinerary", sample_db).
Proof.
  apply (router_refuses sample_db 5 10 ∅ bob). apply bob_may_not_access.
Defined.

(** X17.  The owner of an itinerary and every administrator get the stored
    row from [get_itinerary], and the tables are left as they were. *)
Theorem router_get (db : Router.DB) (itinerary_id : Z)
    (current_user : Router.User) (itinerary : Router.Itinerary) :
  Router.itinerary_table db !! itinerary_id = Some itinerary →
  Router.attr itinerary "user_id" = VInt (Router.user_id current_user)
  ∨ Router.user_type current_user = "admin" →
  Router.get_itinerary itinerary_id current_user db = (Router.Return itinerary, db).
Proof.
  intros Hrow Hok. unfold Router.get_itinerary.
  by rewrite (guard_pass _ db itinerary_id current_user itinerary Hrow Hok).
Qed.

Lemma router_get_witness :
  Router.get_itinerary 5 root sample_db = (Router.Return trip, sample_db).
Proof.
  apply (router_get sample_db 5 root trip).
  - vm_compute. reflexivity.
  - right. reflexivity.
Defined.

(** X18.  When the owner or an administrator deletes an itinerary, its row
    is removed, the other rows and the cities are untouched, and from then
    on [get_itinerary] answers 404 for that itinerary to every user. *)
Theorem router_delete (db : Router.DB) (itinerary_id : Z)
    (current_user : Router.User) :
  Router.may_access db itinerary_id current_user →
  ∃ db',
    Router.delete_itinerary itinerary_id current_user db = (Router.Return (), db')
    ∧ Router.itinerary_table db' = delete itinerary_id (Router.itinerary_table db)
    ∧ Router.city_table db' = Router.city_table db
    ∧ ∀ user, Router.get_itinerary itinerary_id user db'
              = (Router.HTTPException 404 "Itinerary not found", db').
Proof.
  intros (itinerary & Hrow & Hok). unfold Router.delete_itinerary.
  rewrite (guard_pass _ db itinerary_id current_user itinerary Hrow Hok).
  eexists. split_and!; [done..|].
  intros user. unfold Router.get_itinerary.
  rewrite guard_refuse.
  - unfold Router.refusal. cbn. by rewrite lookup_delete_eq.
  - intros (it' & Hrow' & _). cbn in Hrow'. by rewrite lookup_delete_eq in Hrow'.
Qed.

Lemma router_delete_witness :
  ∃ db',
    Router.delete_itinerary 5 alice sample_db = (Router.Return (), db')
    ∧ Router.itinerary_table db' = delete 5 (Router.itinerary_table sample_db)
    ∧ Router.city_table db' = Router.city_table sample_db
    ∧ ∀ user, Router.get_itinerary 5 user db'
              = (Router.HTTPException 404 "Itinerary not found", db').
Proof. apply (router_delete sample_db 5 alice). apply alice_may_access. Defined.

Lemma remove_first_last (x : Z) (l : list Z) :
  x ∉ l → Router.list_remove_first x (l ++ [x]) = l.
Proof.
  induction l as [|y l IH]; cbn [app Router.list_remove_first].
  - intros _. by rewrite decide_True.
  - intros [Hne Hl]%not_elem_of_cons. rewrite decide_False by auto.
    by rewrite IH.
Qed.

Lemma remove_first_elem_of (x y : Z) (l : list Z) :
  y ∈ Router.list_remove_first x l → y ∈ l.
Proof.
  induction l as [|z l IH]; cbn [Router.list_remove_first]; [done|].
  destruct (decide (z = x)); [by right|].
  intros [->|Hy]%elem_of_cons; [by left|right; auto].
Qed.

Lemma remove_first_NoDup (x : Z) (l : list Z) :
  NoDup l → NoDup (Router.list_remove_first x l) ∧ x ∉ Router.list_remove_first x l.
Proof.
  induction 1 as [|z l Hz Hl IH]; cbn [Router.list_remove_first].
  - split; [constructor|apply not_elem_of_nil].
  - destruct (decide (z = x)) as [->|Hne]; [done|].
    destruct IH as [IH1 IH2]. split.
    + constructor; [|done]. intros Hin. by apply Hz, (remove_first_elem_of x).
    + apply not_elem_of_cons. split; [congruence|done].
Qed.

(** What a successful [add_city_to_itinerary] tells. *)
Lemma add_city_success (db db' : Router.DB) (itinerary_id city_id : Z)
    (current_user : Router.User) (response : PyDict.t string string) :
  Router.add_city_to_itinerary itinerary_id city_id current_user db
  = (Router.Return response, db') →
  ∃ itinerary,
    Router.itinerary_table db !! itinerary_id = Some itinerary
    ∧ (Router.attr itinerary "user_id" = VInt (Router.user_id current_user)
       ∨ Router.user_type current_user = "admin")
    ∧ is_Some (Router.city_table db !! city_id)
    ∧ (city_id ∉ Router.cities itinerary)
    ∧ db' = Router.mkDB
              (<[itinerary_id :=
                   Router.mkItinerary (Router.attrs itinerary)
                     (Router.cities itinerary ++ [city_id])]>
                 (Router.itinerary_table db))
              (Router.city_table db).
Proof.
  unfold Router.add_city_to_itinerary.
  destruct (Router.itinerary_table db !! itinerary_id) as [itinerary|] eqn:Hrow.
  2:{ rewrite guard_refuse; [unfold Router.refusal; by rewrite Hrow|].
      intros (it & Hit & _). congruence. }
  destruct (decide (Router.attr itinerary "user_id"
                    = VInt (Router.user_id current_user)
                    ∨ Router.user_type current_user = "admin")) as [Hok|Hno].
  2:{ rewrite guard_refuse; [unfold Router.refusal; by rewrite Hrow|].
      intros (it & Hit & Hok). rewrite Hrow in Hit. by injection Hit as <-. }
  rewrite (guard_pass _ db itinerary_id current_user itinerary Hrow Hok).
  unfold Router.bind, Router.query_city.
  destruct (Router.city_table db !! city_id) as [city|] eqn:Hcity; [|done].
  destruct (bool_decide (city_id ∈ Router.cities itinerary)) eqn:Hin; [done|].
  apply bool_decide_eq_false in Hin. cbn. intros [= _ <-].
  exists itinerary. split_and!; by eauto.
Qed.

(** X19.  After a city was added to an itinerary, adding it again is
    refused with 400 and changes nothing. *)
Theorem router_add_city_twice (db db' : Router.DB) (itinerary_id city_id : Z)
    (current_user : Router.User) (response : PyDict.t string string) :
  Router.add_city_to_itinerary itinerary_id city_id current_user db
  = (Router.Return response, db') →
  Router.add_city_to_itinerary itinerary_id city_id current_user db'
  = (Router.HTTPException 400 "City already in itinerary", db').
Proof.
  intros (itinerary & Hrow & Hok & [city Hcity] & Hnew & ->)%add_city_success.
  unfold Router.add_city_to_itinerary.
  erewrite guard_pass; [|cbn; apply lookup_insert_eq|exact Hok].
  unfold Router.bind, Router.query_city. cbn. rewrite Hcity.
  rewrite bool_decide_eq_true_2; [done|].
  apply elem_of_app. right. by left.
Qed.

Lemma router_add_city_twice_witness :
  ∃ db',
    Router.add_city_to_itinerary 5 11 alice sample_db
    = (Router.Return [("detail", "City added")], db')
    ∧ Router.add_city_to_itinerary 5 11 alice db'
      = (Router.HTTPException 400 "City already in itinerary", db').
Proof.
  eexists. split; [vm_compute; reflexivity|].
  apply (router_add_city_twice sample_db _ 5 11 alice [("detail", "City added")]).
  vm_compute. reflexivity.
Defined.

(** X20.  Removing a city right after it was added restores the tables
    exactly as they were before the addition. *)
Theorem router_add_then_remove (db db' : Router.DB) (itinerary_id city_id : Z)
    (current_user : Router.User) (response : PyDict.t string string) :
  Router.add_city_to_itinerary itinerary_id city_id current_user db
  = (Router.Return response, db') →
  Router.remove_city_from_itinerary itinerary_id city_id current_user db'
  = (Router.Return (), db).
Proof.
  intros (itinerary & Hrow & Hok & [city Hcity] & Hnew & ->)%add_city_success.
  unfold Router.remove_city_from_itinerary.
  erewrite guard_pass; [|cbn; apply lookup_insert_eq|exact Hok].
  unfold Router.bind, Router.query_city. cbn. rewrite Hcity.
  rewrite bool_decide_eq_false_2.
  2:{ intros Hnot. apply Hnot, elem_of_app. right. by left. }
  unfold Router.commit_itinerary. cbn.
  rewrite remove_first_last, insert_insert_eq by done.
  destruct db as [table ctable], itinerary as [a c]. cbn in *.
  by rewrite insert_id.
Qed.

Lemma router_add_then_remove_witness :
  ∃ db',
    Router.add_city_to_itinerary 5 11 root sample_db
    = (Router.Return [("detail", "City added")], db')
    ∧ Router.remove_city_from_itinerary 5 11 root db' = (Router.Return (), sample_db).
Proof.
  eexists. split; [vm_compute; reflexivity|].
  apply (router_add_then_remove sample_db _ 5 11 root [("detail", "City added")]).
  vm_compute. reflexivity.
Defined.

(** What a successful [remove_city_from_itinerary] tells. *)
Lemma remove_city_success (db db' : Router.DB) (itinerary_id city_id : Z)
    (current_user : Router.User) :
  Router.remove_city_from_itinerary itinerary_id city_id current_user db
  = (Router.Return (), db') →
  ∃ itinerary,
    Router.itinerary_table db !! itinerary_id = Some itinerary
    ∧ (Router.attr itinerary "user_id" = VInt (Router.user_id current_user)
       ∨ Router.user_type current_user = "admin")
    ∧ is_Some (Router.city_table db !! city_id)
    ∧ city_id ∈ Router.cities itinerary
    ∧ db' = Router.mkDB
              (<[itinerary_id :=
                   Router.mkItinerary (Router.attrs itinerary)
                     (Router.list_remove_first city_id (Router.cities itinerary))]>
                 (Router.itinerary_table db))
              (Router.city_table db).
Proof.
  unfold Router.remove_city_from_itinerary.
  destruct (Router.itinerary_table db !! itinerary_id) as [itinerary|] eqn:Hrow.
  2:{ rewrite guard_refuse; [unfold Router.refusal; by rewrite Hrow|].
      intros (it & Hit & _). congruence. }
  destruct (decide (Router.attr itinerary "user_id"
                    = VInt (Router.user_id current_user)
                    ∨ Router.user_type current_user = "admin")) as [Hok|Hno].
  2:{ rewrite guard_refuse; [unfold Router.refusal; by rewrite Hrow|].
      intros (it & Hit & Hok). rewrite Hrow in Hit. by injection Hit as <-. }
  rewrite (guard_pass _ db itinerary_id current_user itinerary Hrow Hok).
  unfold Router.bind, Router.query_city.
  destruct (Router.city_table db !! city_id) as [city|] eqn:Hcity; [|done].
  destruct (bool_decide (city_id ∉ Router.cities itinerary)) eqn:Hin; [done|].
  apply bool_decide_eq_false in Hin. cbn. intros [= <-].
  exists itinerary. split_and!; [done|done|by eauto| |done].
  by destruct (decide (city_id ∈ Router.cities itinerary)).
Qed.

(** X21.  When no itinerary lists a city twice, a city that was removed
    from an itinerary is no longer linked to it, and removing it again is
    refused with 404 and changes nothing. *)
Theorem router_remove_city_once (db db' : Router.DB) (itinerary_id city_id : Z)
    (current_user : Router.User) :
  Router.cities_distinct db →
  Router.remove_city_from_itinerary itinerary_id city_id current_user db
  = (Router.Return (), db') →
  (∃ itinerary,
     Router.itinerary_table db' !! itinerary_id = Some itinerary
     ∧ city_id ∉ Router.cities itinerary)
  ∧ Router.remove_city_from_itinerary itinerary_id city_id current_user db'
    = (Router.HTTPException 404 "City not linked to itinerary", db').
Proof.
  intros Hinv (itinerary & Hrow & Hok & [city Hcity] & Hin & ->)%remove_city_success.
  destruct (remove_first_NoDup city_id _ (Hinv _ _ Hrow)) as [_ Hgone].
  split.
  - eexists. split; [cbn; apply lookup_insert_eq|done].
  - unfold Router.remove_city_from_itinerary.
    erewrite guard_pass; [|cbn; apply lookup_insert_eq|exact Hok].
    unfold Router.bind, Router.query_city. cbn. rewrite Hcity.
    by rewrite bool_decide_eq_true_2.
Qed.

Lemma sample_db_cities_distinct : Router.cities_distinct sample_db.
Proof.
  intros itinerary_id itinerary Hrow. cbn in Hrow.
  apply lookup_singleton_Some in Hrow as [_ <-]. cbn.
  apply NoDup_singleton.
Qed.

Lemma router_remove_city_once_witness :
  ∃ db',
    Router.remove_city_from_itinerary 5 10 alice sample_db = (Router.Return (), db')
    ∧ Router.remove_city_from_itinerary 5 10 alice db'
      = (Router.HTTPException 404 "City not linked to itinerary", db').
Proof.
  eexists. split; [vm_compute; reflexivity|].
  apply (router_remove_city_once sample_db _ 5 10 alice).
  - apply sample_db_cities_distinct.
  - vm_compute. reflexivity.
Defined.

Lemma guard_cases {B} (k : Router.Itinerary → Router.M B) (db : Router.DB)
    (itinerary_id : Z) (current_user : Router.User) :
  Router.bind (Router._get_itinerary_or_404 itinerary_id)
    (λ itinerary,
       Router.bind (Router._enforce_owner_or_admin itinerary current_user)
         (λ _, k itinerary)) db
  = (Router.refusal db itinerary_id, db)
  ∨ ∃ itinerary,
      Router.itinerary_table db !! itinerary_id = Some itinerary
      ∧ Router.bind (Router._get_itinerary_or_404 itinerary_id)
          (λ itinerary,
             Router.bind (Router._enforce_owner_or_admin itinerary current_user)
               (λ _, k itinerary)) db
        = k itinerary db.
Proof.
  destruct (Router.itinerary_table db !! itinerary_id) as [itinerary|] eqn:Hrow.
  - destruct (decide (Router.attr itinerary "user_id"
                      = VInt (Router.user_id current_user)
                      ∨ Router.user_type current_user = "admin")) as [Hok|Hno].
    + right. exists itinerary. split; [done|]. by apply guard_pass.
    + left. apply guard_refuse. intros (it & Hit & Hok).
      rewrite Hrow in Hit. by injection Hit as <-.
  - left. apply guard_refuse. intros (it & Hit & _). congruence.
Qed.

Lemma map_fold_setattr (itinerary : Router.Itinerary) (payload : gmap string pyval) :
  map_fold Router.setattr itinerary payload
  = Router.mkItinerary (payload ∪ Router.attrs itinerary) (Router.cities itinerary).
Proof.
  apply (map_fold_weak_ind
           (λ r m, r = Router.mkItinerary (m ∪ Router.attrs itinerary)
                         (Router.cities itinerary))).
  - rewrite (left_id_L ∅ (∪)). by destruct itinerary.
  - intros key value m r _ ->. unfold Router.setattr. cbn.
    by rewrite insert_union_l.
Qed.

Lemma cities_distinct_insert (db : Router.DB) (itinerary_id : Z)
    (itinerary : Router.Itinerary) :
  Router.cities_distinct db → NoDup (Router.cities itinerary) →
  Router.cities_distinct
    (Router.mkDB (<[itinerary_id := itinerary]> (Router.itinerary_table db))
       (Router.city_table db)).
Proof.
  intros Hinv Hnd id it. cbn.
  intros [[_ <-]|[_ Hrow]]%lookup_insert_Some; [done|]. by apply (Hinv id).
Qed.

Lemma cities_distinct_delete (db : Router.DB) (itinerary_id : Z) :
  Router.cities_distinct db →
  Router.cities_distinct
    (Router.mkDB (delete itinerary_id (Router.itinerary_table db))
       (Router.city_table db)).
Proof.
  intros Hinv id it. cbn. intros [_ Hrow]%lookup_delete_Some. by apply (Hinv id).
Qed.

Lemma handler_cases {B} (handler : Router.M B) (k : Router.Itinerary → Router.M B)
    (db : Router.DB) (itinerary_id : Z) (current_user : Router.User) :
  handler
  = Router.bind (Router._get_itinerary_or_404 itinerary_id)
      (λ itinerary,
         Router.bind (Router._enforce_owner_or_admin itinerary current_user)
           (λ _, k itinerary)) →
  handler db = (Router.refusal db itinerary_id, db)
  ∨ ∃ itinerary,
      Router.itinerary_table db !! itinerary_id = Some itinerary
      ∧ handler db = k itinerary db.
Proof. intros ->. apply guard_cases. Qed.

(** X22.  If no itinerary lists a city twice, this still holds after any
    call of a handler that writes to the tables, whatever its outcome. *)
Theorem router_keeps_cities_distinct (db : Router.DB)
    (itinerary_id city_id new_id : Z) (payload : gmap string pyval)
    (current_user : Router.User) :
  Router.cities_distinct db →
  Router.cities_distinct (Router.create_itinerary new_id payload current_user db).2
  ∧ Router.cities_distinct
      (Router.update_itinerary itinerary_id payload current_user db).2
  ∧ Router.cities_distinct (Router.delete_itinerary itinerary_id current_user db).2
  ∧ Router.cities_distinct
      (Router.add_city_to_itinerary itinerary_id city_id current_user db).2
  ∧ Router.cities_distinct
      (Router.remove_city_from_itinerary itinerary_id city_id current_user db).2.
Proof.
  intros Hinv. split_and!.
  - unfold Router.create_itinerary. destruct (_ && _); [done|].
    cbn. apply cities_distinct_insert; [done|constructor].
  - destruct (handler_cases
                (Router.update_itinerary itinerary_id payload current_user) _
                db itinerary_id current_user eq_refl) as [->|(it & Hrow & ->)];
      [done|].
    cbn. apply cities_distinct_insert; [done|].
    rewrite map_fold_setattr. cbn. by apply (Hinv itinerary_id).
  - destruct (handler_cases
                (Router.delete_itinerary itinerary_id current_user) _
                db itinerary_id current_user eq_refl) as [->|(it & Hrow & ->)];
      [done|].
    cbn. by apply cities_distinct_delete.
  - destruct (handler_cases
                (Router.add_city_to_itinerary itinerary_id city_id current_user) _
                db itinerary_id current_user eq_refl) as [->|(it & Hrow & ->)];
      [done|].
    unfold Router.bind, Router.query_city.
    destruct (Router.city_table db !! city_id); [|done].
    destruct (bool_decide (city_id ∈ Router.cities it)) eqn:Hin; [done|].
    apply bool_decide_eq_false in Hin.
    cbn. apply cities_distinct_insert; [done|]. cbn.
    apply NoDup_app. split_and!; [by apply (Hinv itinerary_id)| |apply NoDup_singleton].
    intros x Hx ->%list_elem_of_singleton. done.
  - destruct (handler_cases
                (Router.remove_city_from_itinerary itinerary_id city_id current_user)
                _ db itinerary_id current_user eq_refl) as [->|(it & Hrow & ->)];
      [done|].
    unfold Router.bind, Router.query_city.
    destruct (Router.city_table db !! city_id); [|done].
    destruct (bool_decide (city_id ∉ Router.cities it)); [done|].
    cbn. apply cities_distinct_insert; [done|]. cbn.
    by apply remove_first_NoDup, (Hinv itinerary_id).
Qed.

Lemma router_keeps_cities_distinct_witness :
  Router.cities_distinct (Router.add_city_to_itinerary 5 11 alice sample_db).2.
Proof.
  apply (router_keeps_cities_distinct sample_db 5 11 6 ∅ alice).
  apply sample_db_cities_distinct.
Defined.

(** X23.  When the owner or an administrator updates an itinerary, the
    fields set in the request take their new value, every other field
    keeps its value, the linked cities and the other rows are untouched,
    and the updated row is what is returned and stored. *)
Theorem router_update (db : Router.DB) (itinerary_id : Z)
    (payload : gmap string pyval) (current_user : Router.User)
    (itinerary : Router.Itinerary) :
  Router.itinerary_table db !! itinerary_id = Some itinerary →
  Router.attr itinerary "user_id" = VInt (Router.user_id current_user)
  ∨ Router.user_type current_user = "admin" →
  ∃ itinerary' db',
    Router.update_itinerary itinerary_id payload current_user db
    = (Router.Return itinerary', db')
    ∧ Router.itinerary_table db' !! itinerary_id = Some itinerary'
    ∧ (∀ key, Router.attr itinerary' key
              = match payload !! key with
                | Some value => value
                | None => Router.attr itinerary key
                end)
    ∧ Router.cities itinerary' = Router.cities itinerary
    ∧ (∀ other, other ≠ itinerary_id →
         Router.itinerary_table db' !! other = Router.itinerary_table db !! other)
    ∧ Router.city_table db' = Router.city_table db.
Proof.
  intros Hrow Hok. unfold Router.update_itinerary.
  rewrite (guard_pass _ db itinerary_id current_user itinerary Hrow Hok).
  cbv zeta. rewrite map_fold_setattr.
  eexists _, _. split_and!; [done|cbn; apply lookup_insert_eq| |done| |done].
  - intros key. unfold Router.attr. cbn.
    destruct (payload !! key) as [value|] eqn:Hkey.
    + by rewrite (lookup_union_Some_l _ _ _ _ Hkey).
    + by rewrite lookup_union_r.
  - intros other Hother. cbn. by rewrite lookup_insert_ne.
Qed.

Lemma router_update_witness :
  ∃ itinerary' db',
    Router.update_itinerary 5 {[ "title" := VStr "Roma" ]} alice sample_db
    = (Router.Return itinerary', db')
    ∧ Router.attr itinerary' "title" = VStr "Roma"
    ∧ Router.attr itinerary' "user_id" = VInt 1
    ∧ Router.cities itinerary' = [10].
Proof.
  destruct (router_update sample_db 5 {[ "title" := VStr "Roma" ]} alice trip)
    as (itinerary' & db' & Hupd & _ & Hattr & Hcities & _).
  - vm_compute. reflexivity.
  - left. vm_compute. reflexivity.
  - exists itinerary', db'. split_and!; [done| | |done].
    + rewrite Hattr. vm_compute. reflexivity.
    + rewrite Hattr. vm_compute. reflexivity.
Defined.

(** X24.  A user who is not an administrator can create an itinerary only
    for themself: for another user the call is refused with 403 and nothing
    is stored; otherwise the row is stored with the fields of the request
    and no city, the other rows are untouched, and the creator reads the
    row back with [get_itinerary]. *)
Theorem router_create (db : Router.DB) (new_id : Z) (payload : gmap string pyval)
    (current_user : Router.User) :
  Router.user_type current_user ≠ "admin" →
  if decide (default VNone (payload !! "user_id")
             = VInt (Router.user_id current_user))
  then
    ∃ db',
      Router.create_itinerary new_id payload current_user db
      = (Router.Return (new_id, Router.mkItinerary payload []), db')
      ∧ (∀ other, other ≠ new_id →
           Router.itinerary_table db' !! other = Router.itinerary_table db !! other)
      ∧ Router.get_itinerary new_id current_user db'
        = (Router.Return (Router.mkItinerary payload []), db')
  else
    Router.create_itinerary new_id payload current_user db
    = (Router.HTTPException 403 "Cannot create for other users", db).
Proof.
  intros Huser. unfold Router.create_itinerary.
  destruct (decide (default VNone (payload !! "user_id")
                    = VInt (Router.user_id current_user))) as [Hown|Hother].
  - rewrite (bool_decide_eq_false_2 (_ ≠ VInt _)) by auto. cbn.
    eexists. split_and!; [done| |].
    + intros other Hother. cbn. by rewrite lookup_insert_ne.
    + unfold Router.get_itinerary. erewrite guard_pass; [done|cbn; apply lookup_insert_eq|by left].
  - by rewrite !bool_decide_eq_true_2.
Qed.

Lemma router_create_witness :
  Router.create_itinerary 6 {[ "user_id" := VInt 1 ]} bob sample_db
  = (Router.HTTPException 403 "Cannot create for other users", sample_db).
Proof.
  pose proof (router_create sample_db 6 {[ "user_id" := VInt 1 ]} bob) as Hcreate.
  rewrite decide_False in Hcreate by (vm_compute; discriminate).
  apply Hcreate. vm_compute. discriminate.
Defined.

(** X25.  [list_itineraries] shows an administrator every stored itinerary
    and any other user exactly the itineraries they own, provided the
    ordering done by the database only rearranges the rows; the tables are
    left as they were. *)
Theorem router_list
    (order_by_start_date : list (Z * Router.Itinerary) → list (Z * Router.Itinerary))
    (db : Router.DB) (current_user : Router.User) :
  (∀ rows, order_by_start_date rows ≡ₚ rows) →
  ∃ rows,
    Router.list_itineraries order_by_start_date current_user db
    = (Router.Return rows, db)
    ∧ ∀ itinerary_id itinerary,
        (itinerary_id, itinerary) ∈ rows
        ↔ Router.itinerary_table db !! itinerary_id = Some itinerary
          ∧ (Router.user_type current_user = "admin"
             ∨ Router.attr itinerary "user_id" = VInt (Router.user_id current_user)).
Proof.
  intros Horder. unfold Router.list_itineraries. eexists. split; [done|].
  intros itinerary_id itinerary. rewrite Horder.
  destruct (bool_decide (Router.user_type current_user ≠ "admin")) eqn:Hadmin.
  - apply bool_decide_eq_true in Hadmin.
    rewrite list_elem_of_filter, elem_of_map_to_list. cbn.
    split; [intros [? ?]; auto|intros [? [?|?]]; done].
  - apply bool_decide_eq_false in Hadmin.
    rewrite elem_of_map_to_list. split; [intros ?; split; [done|left]|by intros [? _]].
    by destruct (decide (Router.user_type current_user = "admin")).
Qed.

Lemma router_list_witness :
  ∃ rows,
    Router.list_itineraries id bob sample_db = (Router.Return rows, sample_db)
    ∧ ∀ itinerary_id itinerary,
        (itinerary_id, itinerary) ∈ rows
        ↔ Router.itinerary_table sample_db !! itinerary_id = Some itinerary
          ∧ (Router.user_type bob = "admin"
             ∨ Router.attr itinerary "user_id" = VInt (Router.user_id bob)).
Proof. apply (router_list id sample_db bob). done. Defined.
